(** * AI Horoscope backend ([ai_horoscope/backend/main.py])

    A shallow embedding of the request handler of the horoscope service and of
    the deterministic helpers it owns: the zodiac classifier, the local moon
    phase computation, the natal summary and house cusp computations and the
    local fallback generator.

    Conventions of the embedding.
    - Python [str] values are [string]s: the UTF-8 bytes of the text.
      [strip] knows every white-space character of Unicode, and [lower]
      every character whose lower case holds an ASCII character: the program
      looks for ASCII words in the lower-cased texts, and otherwise only
      compares them with each other.
    - A value of the request body is a [pyval]: [None], a [str] or a value
      of another type, since the handler does not check what it reads.
    - Python [float]s are exact rationals ([Q]); equalities between them are
      stated with [==].
    - Code that can raise returns a [result]; [None] is [option]'s [None].
    - Calls that leave the process (HTTP, the ephemeris library, the hosted
      model, the clock, the random generator) are fields of an environment
      record, so every statement quantifies over all their outcomes. *)

From Stdlib Require Import ZArith QArith Qround Lqa String Ascii List Lia Bool DecimalString.
From stdpp Require Import gmap strings.
Import ListNotations.

Local Open Scope string_scope.
Local Open Scope Z_scope.

(** ** Python strings *)

Module Str.

(** The text made of the given bytes. *)
Definition bytes (l : list Z) : string :=
  string_of_list_ascii (map (fun n => ascii_of_nat (Z.to_nat n)) l).

Definition is_upper (c : ascii) : bool :=
  let n := nat_of_ascii c in (Nat.leb 65 n && Nat.leb n 90)%bool.

(** [c.lower()] for one byte: the ASCII capitals. *)
Definition lower_char (c : ascii) : ascii :=
  if is_upper c then ascii_of_nat (nat_of_ascii c + 32) else c.

(** [s.lower()]. Besides the ASCII capitals, two characters have a lower
    case that holds an ASCII letter: U+0130 (capital I with a dot above, the
    bytes C4 B0) becomes "i" followed by U+0307 (CC 87), and U+212A (the
    Kelvin sign, E2 84 AA) becomes "k". The other characters outside ASCII
    are left as they are: their lower case holds no ASCII character. *)
Fixpoint lower (s : string) : string :=
  match s with
  | EmptyString => EmptyString
  | String c t =>
      match t with
      | EmptyString => String (lower_char c) (lower t)
      | String c2 t2 =>
          if Ascii.eqb c "196" && Ascii.eqb c2 "176"
          then String "i" (String "204" (String "135" (lower t2)))
          else
            match t2 with
            | EmptyString => String (lower_char c) (lower t)
            | String c3 t3 =>
                if Ascii.eqb c "226" && Ascii.eqb c2 "132" && Ascii.eqb c3 "170"
                then String "k" (lower t3)
                else String (lower_char c) (lower t)
            end
      end
  end.

(** [needle in hay]. *)
Fixpoint contains (needle hay : string) : bool :=
  String.prefix needle hay ||
  match hay with
  | EmptyString => false
  | String _ t => contains needle t
  end.

(** [c.isspace()] for a character of one byte: tab, newline, vertical tab,
    form feed, carriage return, the four separators 0x1c-0x1f and the
    space. *)
Definition isspace (c : ascii) : bool :=
  let n := nat_of_ascii c in
  (Nat.leb 9 n && Nat.leb n 13) || (Nat.leb 28 n && Nat.leb n 32).

(** The white space of two bytes: U+0085 and U+00A0. *)
Definition isspace2 (c1 c2 : ascii) : bool :=
  Ascii.eqb c1 "194" && (Ascii.eqb c2 "133" || Ascii.eqb c2 "160").

(** The white space of three bytes: U+1680, U+2000 to U+200A, U+2028,
    U+2029, U+202F, U+205F and U+3000. *)
Definition isspace3 (c1 c2 c3 : ascii) : bool :=
  let n := nat_of_ascii c3 in
  Ascii.eqb c1 "225" && Ascii.eqb c2 "154" && Ascii.eqb c3 "128"
  || Ascii.eqb c1 "226" && Ascii.eqb c2 "128"
     && (Nat.leb 128 n && Nat.leb n 138 || Nat.eqb n 168 || Nat.eqb n 169 || Nat.eqb n 175)
  || Ascii.eqb c1 "226" && Ascii.eqb c2 "129" && Ascii.eqb c3 "159"
  || Ascii.eqb c1 "227" && Ascii.eqb c2 "128" && Ascii.eqb c3 "128".

Fixpoint lstrip (s : string) : string :=
  match s with
  | EmptyString => EmptyString
  | String c t =>
      if isspace c then lstrip t
      else
        match t with
        | EmptyString => s
        | String c2 t2 =>
            if isspace2 c c2 then lstrip t2
            else
              match t2 with
              | EmptyString => s
              | String c3 t3 => if isspace3 c c2 c3 then lstrip t3 else s
              end
        end
  end.

(** The text holds white space only (the empty text included): [not s.strip()]. *)
Fixpoint blank (s : string) : bool :=
  match s with
  | EmptyString => true
  | String c t =>
      if isspace c then blank t
      else
        match t with
        | EmptyString => false
        | String c2 t2 =>
            if isspace2 c c2 then blank t2
            else
              match t2 with
              | EmptyString => false
              | String c3 t3 => if isspace3 c c2 c3 then blank t3 else false
              end
        end
  end.

Fixpoint rstrip (s : string) : string :=
  match s with
  | EmptyString => EmptyString
  | String c t => if blank s then EmptyString else String c (rstrip t)
  end.

(** [s.strip()]. *)
Definition strip (s : string) : string := rstrip (lstrip s).

(** Truth value of a string: non-empty. *)
Definition truthy (s : string) : bool :=
  match s with EmptyString => false | _ => true end.

(** Truth value of an optional string ([None] and [""] are false). *)
Definition truthy_opt (o : option string) : bool :=
  match o with None => false | Some s => truthy s end.

(** [s.split(sep)] for a one-character separator: never the empty list. *)
Fixpoint split (sep : ascii) (s : string) : list string :=
  match s with
  | EmptyString => [EmptyString]
  | String c t =>
      if Ascii.eqb c sep then EmptyString :: split sep t
      else match split sep t with
           | h :: r => String c h :: r
           | [] => [String c EmptyString]
           end
  end.

(** [sep.join(parts)]. *)
Fixpoint join (sep : string) (parts : list string) : string :=
  match parts with
  | [] => EmptyString
  | [p] => p
  | p :: rest => p +:+ sep +:+ join sep rest
  end.

(** [str(n)] for an integer. *)
Definition of_Z (n : Z) : string := NilZero.string_of_int (Z.to_int n).

(** [f"{o}"] for an optional string: [None] prints as "None". *)
Definition of_opt (o : option string) : string :=
  match o with None => "None" | Some s => s end.

End Str.

(** ** Python floats as rationals *)

Module Num.

Definition Qltb (x y : Q) : bool := negb (Qle_bool y x).
Definition Qgeb (x y : Q) : bool := Qle_bool y x.

(** [x % y] on floats, for a positive divisor: the sign of the divisor. *)
Definition Qmod (x y : Q) : Q := (x - y * inject_Z (Qfloor (x / y)))%Q.

(** [x // y]. *)
Definition Qfloordiv (x y : Q) : Z := Qfloor (x / y).

(** Nearest integer, ties to the even one (Python's [round]). *)
Definition round_half_even (x : Q) : Z :=
  let f := Qfloor x in
  let r := (x - inject_Z f)%Q in
  match (r ?= 1 # 2)%Q with
  | Lt => f
  | Gt => f + 1
  | Eq => if Z.even f then f else f + 1
  end.

(** [round(x, 3)]. *)
Definition round3 (x : Q) : Q := inject_Z (round_half_even (x * 1000)) / 1000.

(** [round(x, 1)]. *)
Definition round1 (x : Q) : Q := inject_Z (round_half_even (x * 10)) / 10.

(** [f"{x:.1f}"]: sign (kept when a negative value rounds to zero), integer
    part, one decimal. *)
Definition format_1f (x : Q) : string :=
  let t := round_half_even (x * 10) in
  (if Qltb x 0 then "-" else "") +:+ Str.of_Z (Z.abs t / 10) +:+ "." +:+ Str.of_Z (Z.abs t mod 10).

End Num.

(** ** Zodiac classifier *)

Definition zodiac_sign (month day : Z) : string :=
  if (month =? 3) && (day >=? 21) || (month =? 4) && (day <=? 19) then "aries"
  else if (month =? 4) && (day >=? 20) || (month =? 5) && (day <=? 20) then "taurus"
  else if (month =? 5) && (day >=? 21) || (month =? 6) && (day <=? 20) then "gemini"
  else if (month =? 6) && (day >=? 21) || (month =? 7) && (day <=? 22) then "cancer"
  else if (month =? 7) && (day >=? 23) || (month =? 8) && (day <=? 22) then "leo"
  else if (month =? 8) && (day >=? 23) || (month =? 9) && (day <=? 22) then "virgo"
  else if (month =? 9) && (day >=? 23) || (month =? 10) && (day <=? 22) then "libra"
  else if (month =? 10) && (day >=? 23) || (month =? 11) && (day <=? 21) then "scorpio"
  else if (month =? 11) && (day >=? 22) || (month =? 12) && (day <=? 21) then "sagittarius"
  else if (month =? 12) && (day >=? 22) || (month =? 1) && (day <=? 19) then "capricorn"
  else if (month =? 1) && (day >=? 20) || (month =? 2) && (day <=? 18) then "aquarius"
  else "pisces".

(** ** Dates and times ([datetime]) *)

Record date := mkdate { d_year : Z; d_month : Z; d_day : Z }.

Record datetime := mkdatetime {
  dt_year : Z; dt_month : Z; dt_day : Z;
  dt_hour : Z; dt_minute : Z; dt_second : Z; dt_microsecond : Z }.

Definition is_leap (y : Z) : bool :=
  (y mod 4 =? 0) && (negb (y mod 100 =? 0) || (y mod 400 =? 0)).

Definition days_before_year (y : Z) : Z :=
  let p := y - 1 in p * 365 + p / 4 - p / 100 + p / 400.

Definition days_before_month (y m : Z) : Z :=
  nth (Z.to_nat m) [0; 0; 31; 59; 90; 120; 151; 181; 212; 243; 273; 304; 334] 0
  + (if (m >? 2) && is_leap y then 1 else 0).

(** Proleptic Gregorian ordinal, 0001-01-01 being day 1. *)
Definition toordinal (y m d : Z) : Z := days_before_year y + days_before_month y m + d.

(** [(a - b).total_seconds()]. *)
Definition total_seconds_between (a b : datetime) : Q :=
  let days := toordinal (dt_year a) (dt_month a) (dt_day a)
              - toordinal (dt_year b) (dt_month b) (dt_day b) in
  let secs := (dt_hour a * 3600 + dt_minute a * 60 + dt_second a)
              - (dt_hour b * 3600 + dt_minute b * 60 + dt_second b) in
  (inject_Z (days * 86400 + secs)
   + inject_Z (dt_microsecond a - dt_microsecond b) / 1000000)%Q.

(** [now.replace(hour=12, minute=0, second=0, microsecond=0)]. *)
Definition at_noon (now : datetime) : datetime :=
  mkdatetime (dt_year now) (dt_month now) (dt_day now) 12 0 0 0.

(** ** Local moon phase *)

Record moon_reading := mkmoon { moon_phase : Q; moon_phase_name : string }.

Definition synodic : Q := 2953058867 # 100000000.

(** Reference new moon: 2000-01-06 18:14 UTC. *)
Definition ref_new_moon : datetime := mkdatetime 2000 1 6 18 14 0 0.

Definition phase_title (phase : Q) : string :=
  if Num.Qltb phase (625 # 10000) || Num.Qgeb phase (9375 # 10000) then "New Moon"
  else if Num.Qltb phase (1875 # 10000) then "Waxing Crescent"
  else if Num.Qltb phase (3125 # 10000) then "First Quarter"
  else if Num.Qltb phase (4375 # 10000) then "Waxing Gibbous"
  else if Num.Qltb phase (5625 # 10000) then "Full Moon"
  else if Num.Qltb phase (6875 # 10000) then "Waning Gibbous"
  else if Num.Qltb phase (8125 # 10000) then "Last Quarter"
  else "Waning Crescent".

(** [utcnow] is the value of [datetime.utcnow()]. *)
Definition get_local_moon_phase (utcnow : datetime) : moon_reading :=
  let now := at_noon utcnow in
  let days := (total_seconds_between now ref_new_moon / 86400)%Q in
  let phase := (Num.Qmod days synodic / synodic)%Q in
  let phase := Num.round3 phase in
  mkmoon phase (phase_title phase).

(** ** Exceptions *)

(** The handler tells [HTTPException] from every other [Exception];
    [Error text] is any of the latter, [text] being [str(e)]. *)
Inductive exn :=
  | HTTPException (status_code : Z) (detail : string)
  | Error (text : string).

Inductive result (A : Type) :=
  | Ok (a : A)
  | Raise (e : exn).
Arguments Ok {A} a.
Arguments Raise {A} e.

#[global] Instance result_ret : MRet result := fun _ a => Ok a.

#[global] Instance result_bind : MBind result := fun _ _ k r =>
  match r with
  | Ok a => k a
  | Raise e => Raise e
  end.

(** [try: body except Exception: fallback]. *)
Definition try_except {A : Type} (body : result A) (fallback : A) : A :=
  match body with
  | Ok a => a
  | Raise _ => fallback
  end.

(** [xs[i]] for a non-negative index. *)
Definition index {A : Type} (xs : list A) (i : nat) : result A :=
  match nth_error xs i with
  | Some x => Ok x
  | None => Raise (Error "list index out of range")
  end.

(** ** Signs of ecliptic longitudes *)

Definition signs : list string :=
  ["aries"; "taurus"; "gemini"; "cancer"; "leo"; "virgo";
   "libra"; "scorpio"; "sagittarius"; "capricorn"; "aquarius"; "pisces"].

(** With rationals for floats the remainder and the quotient are exact, as
    they are on floats for a longitude in [0, 360), the range of the
    ephemeris; outside it the float remainder may round (to 360.0 for a
    tiny negative longitude), which the rationals do not show. *)
Definition degree_to_sign_name (deg : Q) : result string :=
  let idx := Num.Qfloordiv (Num.Qmod deg 360) 30 in
  index signs (Z.to_nat idx).

(** ** The libraries behind the astrology computations

    [swisseph], [zoneinfo] and the ISO parsers of [datetime] are not part of
    the repository; the computations are stated over every behaviour of
    theirs. *)

Record astro_lib := {
  (** [datetime.fromisoformat]: [None] when it raises [ValueError]. *)
  datetime_fromisoformat : string -> option datetime;
  zone : Type;
  (** [ZoneInfo(name)]. *)
  ZoneInfo : string -> result zone;
  (** [dt.replace(tzinfo=z).astimezone(u)]. *)
  astimezone : zone -> zone -> datetime -> result datetime;
  (** [swe.julday(year, month, day, hour)]. *)
  swe_julday : Z -> Z -> Z -> Q -> result Q;
  (** [swe.houses(jd, lat, lon)]: the pair [(cusps, ascmc)]. *)
  swe_houses : Q -> Q -> Q -> result (list Q * list Q);
  (** [swe.calc_ut(jd, body)[0][0]]: the ecliptic longitude. *)
  swe_calc_ut : Q -> Z -> result Q }.

(** Body numbers of the Swiss Ephemeris ([swe.SUN] ... [swe.PLUTO]). *)
Definition planets : list (string * Z) :=
  [("Sun", 0); ("Moon", 1); ("Mercury", 2); ("Venus", 3); ("Mars", 4);
   ("Jupiter", 5); ("Saturn", 6); ("Uranus", 7); ("Neptune", 8); ("Pluto", 9)].

Definition pad (width : nat) (s : string) : string :=
  String.concat "" (repeat "0" (width - String.length s)) +:+ s.

(** [d.isoformat()]: YYYY-MM-DD. *)
Definition date_isoformat (d : date) : string :=
  pad 4 (Str.of_Z (d_year d)) +:+ "-" +:+ pad 2 (Str.of_Z (d_month d))
  +:+ "-" +:+ pad 2 (Str.of_Z (d_day d)).

(** One house of the chart: the dict with keys "house", "sign", "degree". *)
Record house_cusp := mkhouse { house : Z; sign : string; degree : Q }.

Section Astrology.

Context (L : astro_lib).

(** The first lines of both computations: the birth instant as a Julian day. *)
Definition birth_julday (bday : date) (birth_time tz_name : string) : result Q :=
  local_dt ← match datetime_fromisoformat L (date_isoformat bday +:+ "T" +:+ birth_time) with
              | Some dt => Ok dt
              | None => Raise (Error "Invalid isoformat string")
              end ;
  z ← match ZoneInfo L tz_name with
       | Ok z => Ok z
       | Raise _ => ZoneInfo L "UTC"
       end ;
  u ← ZoneInfo L "UTC" ;
  utc_dt ← astimezone L z u local_dt ;
  swe_julday L (dt_year utc_dt) (dt_month utc_dt) (dt_day utc_dt)
    (inject_Z (dt_hour utc_dt) + inject_Z (dt_minute utc_dt) / 60
     + inject_Z (dt_second utc_dt) / 3600
     + inject_Z (dt_microsecond utc_dt) / 3600000000)%Q.

(** The guarded ascendant lookup: [(asc_deg, asc_sign)]. *)
Definition ascendant (jd lat lon : Q) : option Q * string :=
  try_except
    ('(cusps, ascmc) ← swe_houses L jd lat lon ;
     asc_deg ← index ascmc 0 ;
     asc_sign ← degree_to_sign_name asc_deg ;
     Ok (Some asc_deg, asc_sign))
    (None, "unknown").

(** The loop over [planets.items()]; a body that raises is skipped. *)
Fixpoint planet_loop (jd : Q) (bodies : list (string * Z)) (planet_parts : list string)
  : list string :=
  match bodies with
  | [] => planet_parts
  | (name, pconst) :: rest =>
      planet_loop jd rest
        (try_except
           (lonp ← swe_calc_ut L jd pconst ;
            sign_name ← degree_to_sign_name lonp ;
            Ok (planet_parts ++
                [name +:+ " in " +:+ sign_name +:+ " (" +:+ Num.format_1f lonp +:+ "°)"])%list)
           planet_parts)
  end.

Definition compute_natal_summary (bday : date) (birth_time : string) (lat lon : Q)
  (tz_name : string) : result string :=
  jd ← birth_julday bday birth_time tz_name ;
  let '(asc_deg, asc_sign) := ascendant jd lat lon in
  let parts :=
    match asc_deg with
    | Some deg => ["Ascendant: " +:+ asc_sign +:+ " (" +:+ Num.format_1f deg +:+ "°)"]
    | None => []
    end in
  let planet_parts := planet_loop jd planets [] in
  let parts :=
    match planet_parts with
    | [] => parts
    | _ => (parts ++ ["Planets: " +:+ Str.join ", " (firstn 6 planet_parts)])%list
    end in
  Ok (Str.join "; " parts).

(** The loop over [indices], numbering the houses from [house_num]. *)
Fixpoint cusp_loop (cusps : list Q) (indices : list nat) (house_num : Z)
  (houses : list house_cusp) : result (list house_cusp) :=
  match indices with
  | [] => Ok houses
  | idx :: rest =>
      deg ← index cusps idx ;
      sign ← degree_to_sign_name deg ;
      let deg_in_sign := Num.Qmod deg 30 in
      cusp_loop cusps rest (house_num + 1)
        (houses ++ [mkhouse house_num sign (Num.round1 deg_in_sign)])%list
  end.

Definition cusp_indices (len : nat) : list nat :=
  if Nat.leb 13 len then seq 1 12 else seq 0 (Nat.min 12 len).

Definition compute_house_cusps (bday : date) (birth_time : string) (lat lon : Q)
  (tz_name : string) : result (list house_cusp) :=
  jd ← birth_julday bday birth_time tz_name ;
  '(cusps, _) ← swe_houses L jd lat lon ;
  cusp_loop cusps (cusp_indices (length cusps)) 1 [].

End Astrology.

(** ** Values of the request body *)

(** A value read from the body by [payload.get] or [form.get]: [None], a
    [str], or a value of another type (a number, a boolean, a list, an
    object, an uploaded file), of which the handler meets the name of the
    type, the text [str(v)] and the truth value. *)
Inductive pyval :=
  | PNone
  | PStr (s : string)
  | POther (type_name text : string) (truth : bool).

Definition py_of (o : option string) : pyval :=
  match o with
  | Some s => PStr s
  | None => PNone
  end.

(** Truth value. *)
Definition py_truthy (v : pyval) : bool :=
  match v with
  | PNone => false
  | PStr s => Str.truthy s
  | POther _ _ truth => truth
  end.

(** [f"{v}"]. *)
Definition py_str (v : pyval) : string :=
  match v with
  | PNone => "None"
  | PStr s => s
  | POther _ text _ => text
  end.

(** [type(v).__name__]. *)
Definition py_type (v : pyval) : string :=
  match v with
  | PNone => "NoneType"
  | PStr _ => "str"
  | POther type_name _ _ => type_name
  end.

(** The [AttributeError] of [v.attribute] on a value without it. *)
Definition no_attribute (v : pyval) (attribute : string) : exn :=
  Error ("'" +:+ py_type v +:+ "' object has no attribute '" +:+ attribute +:+ "'").

(** The [TypeError] of [v + ', '] on a value that is not a [str]. *)
Definition no_concat (v : pyval) : exn :=
  if String.eqb (py_type v) "list"
  then Error ("can only concatenate list (not " +:+ Str.bytes [34] +:+ "str" +:+ Str.bytes [34]
              +:+ ") to list")
  else Error ("unsupported operand type(s) for +: '" +:+ py_type v +:+ "' and 'str'").

(** ** Local fallback generator *)

(** [random] and [hashlib]: the digest of the seed text read as an integer,
    the generator state after [random.seed], and the draw behind
    [random.choice]. *)
Record random_lib := {
  rng : Type;
  (** [int(hashlib.sha256(text.encode("utf-8")).hexdigest(), 16)]; the
      encoding raises [UnicodeEncodeError] on a text that holds a lone
      surrogate. *)
  sha256_int : string -> result N;
  (** [random.seed(n)]. *)
  random_seed : N -> rng;
  (** The draw of [random.choice] on a sequence of [n > 0] items. *)
  randbelow : nat -> rng -> nat * rng;
  randbelow_lt : forall n g, (0 < n)%nat -> (fst (randbelow n g) < n)%nat }.

Record templates := {
  openings : list string;
  advices : list string;
  whys : list string }.

Definition serious_templates (display sign transit chart_feature : string) : templates :=
  {| openings :=
      [display +:+ "Today, " +:+ sign +:+ " energy is shaped by " +:+ transit +:+ ", especially as it interacts with your " +:+ chart_feature +:+ ".";
       display +:+ sign +:+ " focus favors consistency and discipline, with " +:+ transit +:+ " influencing your " +:+ chart_feature +:+ ".";
       display +:+ "Your " +:+ sign +:+ " instincts lean toward structure and follow-through, as " +:+ transit +:+ " activates your " +:+ chart_feature +:+ ".";
       display +:+ "A grounded mood prevails for " +:+ sign +:+ ", thanks to " +:+ transit +:+ " and your " +:+ chart_feature +:+ "."];
     advices :=
      ["Choose one small task and finish it — progress builds momentum, especially for your " +:+ chart_feature +:+ ".";
       "Pick a single priority and complete it without multitasking; your " +:+ chart_feature +:+ " will benefit.";
       "Commit to one simple routine and keep it clean and doable, honoring your " +:+ chart_feature +:+ ".";
       "Focus on practical goals and avoid distractions; " +:+ transit +:+ " supports your " +:+ chart_feature +:+ "."];
     whys :=
      [transit +:+ " brings clarity and rewards measured effort, especially for your " +:+ chart_feature +:+ ".";
       "Clarity grows when your effort is focused and measured, activating your " +:+ chart_feature +:+ ".";
       "Small, steady wins reduce friction and increase confidence in your " +:+ chart_feature +:+ ".";
       "This keeps stress low and creates clear results to build on, especially under " +:+ transit +:+ " and your " +:+ chart_feature +:+ "."] |}.

Definition inspirational_templates (display sign transit chart_feature : string) : templates :=
  {| openings :=
      [display +:+ "The stars nudge a quiet confidence in your " +:+ sign +:+ " nature today, as " +:+ transit +:+ " highlights your " +:+ chart_feature +:+ ".";
       display +:+ "Your " +:+ sign +:+ " spark feels brighter, like a candle finding fresh air as " +:+ transit +:+ " energizes your " +:+ chart_feature +:+ ".";
       display +:+ "A hopeful current runs through your " +:+ sign +:+ " spirit, inspired by " +:+ transit +:+ " and your " +:+ chart_feature +:+ ".";
       display +:+ "Momentum builds for " +:+ sign +:+ " as " +:+ transit +:+ " opens new possibilities for your " +:+ chart_feature +:+ "."];
     advices :=
      ["Try something that stretches you a little — a short, bold step will teach you more than a big plan, especially for your " +:+ chart_feature +:+ ".";
       "Let a small brave action open the door to a bigger story; your " +:+ chart_feature +:+ " is ready.";
       "Take one gentle leap and let it echo through your day, guided by your " +:+ chart_feature +:+ ".";
       "Embrace change and let inspiration guide you; " +:+ transit +:+ " empowers your " +:+ chart_feature +:+ "."];
     whys :=
      [transit +:+ " reveals strengths and reduces fear of failure, especially for your " +:+ chart_feature +:+ ".";
       "Momentum arrives when you choose possibility over perfection, activating your " +:+ chart_feature +:+ ".";
       "A tiny risk can light a path you did not know existed, especially with " +:+ transit +:+ " energizing your " +:+ chart_feature +:+ ".";
       "Today is notable for " +:+ sign +:+ " because " +:+ transit +:+ " encourages growth in your " +:+ chart_feature +:+ "."] |}.

Definition playful_templates (display sign transit chart_feature : string) : templates :=
  {| openings :=
      [display +:+ "Your " +:+ sign +:+ " vibe today is playful and a little impatient, with " +:+ transit +:+ " stirring your " +:+ chart_feature +:+ ".";
       display +:+ "Your " +:+ sign +:+ " mood is mischievous, like it had too much coffee — blame " +:+ transit +:+ " for your " +:+ chart_feature +:+ "!";
       display +:+ "Your " +:+ sign +:+ " energy is bouncy and slightly chaotic, thanks to " +:+ transit +:+ " and your " +:+ chart_feature +:+ ".";
       display +:+ "A quirky twist for " +:+ sign +:+ " as " +:+ transit +:+ " adds excitement to your " +:+ chart_feature +:+ "."];
     advices :=
      ["Do one unexpected, harmless thing that sparks joy — a tiny risk with upside for your " +:+ chart_feature +:+ ".";
       "Try a small plot twist in your routine and see what it unlocks for your " +:+ chart_feature +:+ ".";
       "Give yourself one goofy detour and keep the rest simple, honoring your " +:+ chart_feature +:+ ".";
       "Let spontaneity lead the way and enjoy the ride; " +:+ transit +:+ " energizes your " +:+ chart_feature +:+ "."];
     whys :=
      [transit +:+ " breaks routine and creates space for new opportunities in your " +:+ chart_feature +:+ ".";
       "Surprise adds fuel to your momentum without derailing the day, especially for your " +:+ chart_feature +:+ ".";
       "A playful shake-up makes the ordinary feel magnetic, especially with " +:+ transit +:+ " in play for your " +:+ chart_feature +:+ ".";
       "Today is notable for " +:+ sign +:+ " because " +:+ transit +:+ " brings unexpected fun to your " +:+ chart_feature +:+ "."] |}.

Definition transit_keywords : list string :=
  ["Venus trine Mars"; "Mercury retrograde"; "Moon sextile Jupiter"; "Sun square Saturn";
   "Mars conjunct Pluto"; "Jupiter opposite Neptune"; "Saturn sextile Uranus"; "Moon trine Venus";
   "Sun conjunct Mercury"; "Venus square Neptune"; "Mars sextile Saturn"; "Jupiter trine Sun"].

(** [tone and needle in tone.lower()]. *)
Definition tone_has (needle : string) (tone : pyval) : result bool :=
  match tone with
  | PNone => Ok false
  | PStr t => Ok (Str.truthy t && Str.contains needle (Str.lower t))
  | POther _ _ truth => if truth then Raise (no_attribute tone "lower") else Ok false
  end.

(** The [if] / [elif] / [else] over the tone: the three lists of sentences. *)
Definition tone_templates (tone : pyval) (display sign transit chart_feature : string)
  : result templates :=
  serious ← tone_has "serious" tone ;
  if (serious : bool) then Ok (serious_templates display sign transit chart_feature)
  else
    inspir ← tone_has "inspir" tone ;
    if (inspir : bool) then Ok (inspirational_templates display sign transit chart_feature)
    else Ok (playful_templates display sign transit chart_feature).

(** [natal_summary or ''] and [if natal_summary]: absent and empty alike. *)
Definition or_empty (o : option string) : string :=
  match o with
  | Some s => s
  | None => ""
  end.

(** [[f for f in natal_summary.split(';') if f.strip()]], or [[]]. *)
Definition chart_features (natal_summary : option string) : list string :=
  if Str.truthy_opt natal_summary
  then List.filter (fun f => Str.truthy (Str.strip f)) (Str.split ";" (or_empty natal_summary))
  else [].

Section Fallback.

Context (R : random_lib).

(** [random.choice(seq)]. *)
Definition random_choice {A : Type} (seq : list A) (g : rng R) : result (A * rng R) :=
  match seq with
  | [] => Raise (Error "Cannot choose from an empty sequence")
  | _ => let '(i, g') := randbelow R (length seq) g in
         x ← index seq i ; Ok (x, g')
  end.

(** [(name + ', ') if name else '']. *)
Definition display_name (name : pyval) : result string :=
  if py_truthy name
  then match name with
       | PStr s => Ok (s +:+ ", ")
       | _ => Raise (no_concat name)
       end
  else Ok "".

(** The seed text; [now] is [str(time.time())]. *)
Definition seed_source (name : pyval) (sign : string) (tone : pyval)
  (natal_summary : option string) (now : string) : string :=
  py_str name +:+ "|" +:+ sign +:+ "|" +:+ py_str tone +:+ "|"
  +:+ or_empty natal_summary +:+ "|" +:+ now.

(** The chart feature: one of the clauses of the summary, or the default. *)
Definition pick_chart_feature (natal_summary : option string) (sign : string) (g : rng R)
  : result (string * rng R) :=
  match chart_features natal_summary with
  | [] => Ok ("Ascendant in " +:+ sign, g)
  | features => random_choice features g
  end.

(** [f" ({natal_summary})" if natal_summary else '']. *)
Definition natal_hint (natal_summary : option string) : string :=
  if Str.truthy_opt natal_summary then " (" +:+ or_empty natal_summary +:+ ")" else "".

(** The generator once seeded: the five draws and the composition. *)
Definition compose (display sign : string) (tone : pyval) (natal_summary : option string)
  (g : rng R) : result string :=
  '(transit, g) ← random_choice transit_keywords g ;
  '(chart_feature, g) ← pick_chart_feature natal_summary sign g ;
  t ← tone_templates tone display sign transit chart_feature ;
  '(opening, g) ← random_choice (openings t) g ;
  '(advice, g) ← random_choice (advices t) g ;
  '(why, g) ← random_choice (whys t) g ;
  Ok (opening +:+ " " +:+ advice +:+ natal_hint natal_summary +:+ " " +:+ why).

Definition local_fallback (name : pyval) (sign : string) (tone : pyval)
  (natal_summary : option string) (now : string) : result string :=
  display ← display_name name ;
  seed ← sha256_int R (seed_source name sign tone natal_summary now) ;
  compose display sign tone natal_summary (random_seed R seed).

End Fallback.

(** ** The request handler and its collaborators *)

(** JSON scalars held by the astronomy dictionary. *)
Inductive value :=
  | VNone
  | VStr (s : string)
  | VNum (q : Q).

(** An upstream HTTP answer: the status and the decoded body ([res.json()],
    which may raise). *)
Record http_response (B : Type) := mkresponse {
  status_code : Z;
  json : result B }.
Arguments mkresponse {B} _ _.
Arguments status_code {B} _.
Arguments json {B} _.

(** One geocoding candidate: [float(data[0]["lat"])] and [float(data[0]["lon"])]. *)
Record candidate := mkcandidate { c_lat : result Q; c_lon : result Q }.

(** One cache entry [(lat, lon, tz_name, timestamp)]. *)
Record cache_entry := mkentry { e_lat : Q; e_lon : Q; e_tz : string; e_time : Q }.

Definition GEOCODE_TTL : Q := inject_Z (60 * 60 * 24 * 7).

(** Everything outside the process, for one request. *)
Record world := {
  astro : astro_lib;
  random : random_lib;
  (** [date.fromisoformat]: [None] when it raises. *)
  date_fromisoformat : string -> option date;
  (** [time.time()] in [geocode_location], and its text in the seed. *)
  time_time : Q;
  time_text : string;
  (** [datetime.utcnow()]. *)
  utcnow : datetime;
  (** The Nominatim search for a location text. *)
  nominatim_get : string -> result (http_response (list candidate));
  (** [tf.timezone_at(lat=lat, lng=lon)]. *)
  timezone_at : Q -> Q -> result (option string);
  (** The Open-Meteo answer: the "daily" object of the body. *)
  open_meteo_get : Q -> Q -> result (http_response (gmap string (list value)));
  (** [openai_client]: [None] without an API key; otherwise the outcome of
      the completion call, [resp.choices[0].message.content]. *)
  openai_client : option (result (option string));
  (** The rendering of [index.html] by [templates.TemplateResponse], for the
      generated text, the sign, the name and the natal summary. *)
  render_index : string -> string -> pyval -> option string -> result unit }.

(** A decoded JSON document: an object, whose members are read by
    [payload.get], or a document of another type ([null], a string, a
    number, a boolean, a list). *)
Inductive json_value :=
  | JObject (members : gmap string pyval)
  | JOther (document : pyval).

(** The incoming request: the headers, and the outcomes of
    [await request.json()] and of [await request.form()], which raise on a
    body they cannot decode. *)
Record http_request := {
  h_headers : gmap string string;
  h_json : result json_value;
  h_form : result (gmap string pyval) }.

(** A request whose body has been decoded and whose fields are strings: the
    members of the JSON object (a string or [null] each) and the fields of
    the form. *)
Record request := {
  headers : gmap string string;
  json_body : gmap string (option string);
  form_body : gmap string string }.

(** The same request as it is received. *)
Definition received (req : request) : http_request := {|
  h_headers := headers req;
  h_json := Ok (JObject (py_of <$> json_body req));
  h_form := Ok (PStr <$> form_body req) |}.

Record payload := mkpayload {
  p_horoscope : string;
  p_astronomy : gmap string value;
  p_houses : list house_cusp }.

Inductive response :=
  | JSONResponse (content : payload)
  | TemplateResponse (result sign : string) (name : pyval) (natal : option string).

Definition moon_dict (r : moon_reading) : gmap string value :=
  <["moon_phase" := VNum (moon_phase r)]>
    (<["moon_phase_name" := VStr (moon_phase_name r)]> ∅).

Section Handler.

Context (W : world).

(** [cached and now - cached[3] < GEOCODE_TTL]: the entry still in use. *)
Definition fresh_entry (geocode_cache : gmap string cache_entry) (key : string) (now : Q)
  : option cache_entry :=
  match geocode_cache !! key with
  | Some cached => if Num.Qltb (now - e_time cached) GEOCODE_TTL then Some cached else None
  | None => None
  end.

(** The request to Nominatim and the reading of its first candidate. *)
Definition geocode_upstream (location : string) : result (Q * Q * string) :=
  res ← nominatim_get W location ;
  if negb (status_code res =? 200)
  then Raise (HTTPException 502 "Geocoding service error")
  else
    data ← json res ;
    match data with
    | [] => Raise (HTTPException 400 "Could not geocode birth location")
    | first :: _ =>
        lat ← c_lat first ;
        lon ← c_lon first ;
        tz ← timezone_at W lat lon ;
        let tz_name := if Str.truthy_opt tz then or_empty tz else "UTC" in
        Ok (lat, lon, tz_name)
    end.

Definition geocode_location (location : string) (geocode_cache : gmap string cache_entry)
  : result (Q * Q * string) * gmap string cache_entry :=
  let key := Str.lower (Str.strip location) in
  let now := time_time W in
  match fresh_entry geocode_cache key now with
  | Some cached => (Ok (e_lat cached, e_lon cached, e_tz cached), geocode_cache)
  | None =>
      match geocode_upstream location with
      | Ok (lat, lon, tz_name) =>
          (Ok (lat, lon, tz_name), <[key := mkentry lat lon tz_name now]> geocode_cache)
      | Raise e => (Raise e, geocode_cache)
      end
  end.

(** [first_value(key)]. *)
Definition first_value (daily : gmap string (list value)) (key : string) : value :=
  match default [] (daily !! key) with
  | v :: _ => v
  | [] => VNone
  end.

Definition fetch_astronomy (lat lon : Q) : gmap string value :=
  try_except
    (res ← open_meteo_get W lat lon ;
     if negb (status_code res =? 200)
     then Ok (moon_dict (get_local_moon_phase (utcnow W)))
     else
       daily ← json res ;
       let astronomy : gmap string value :=
         list_to_map
           (map (fun key => (key, first_value daily key))
              ["sunrise"; "sunset"; "moonrise"; "moonset"; "moon_phase"; "day_length"]) in
       match astronomy !! "moon_phase" with
       | Some VNone | None => Ok (moon_dict (get_local_moon_phase (utcnow W)) ∪ astronomy)
       | _ => Ok astronomy
       end)
    (moon_dict (get_local_moon_phase (utcnow W))).

(** The five values read from the body, by [payload.get] or [form.get]. *)
Record inputs := mkinputs {
  i_name : pyval;
  i_birthday : pyval;
  i_birth_time : pyval;
  i_birth_location : pyval;
  i_tone : pyval }.

(** The reading of the body, as JSON or as form data; neither call is under
    a [try]. *)
Definition read_inputs (r : http_request) : result inputs :=
  let content_type := default "" (h_headers r !! "content-type") in
  if Str.contains "application/json" content_type
  then
    payload ← h_json r ;
    match payload with
    | JObject members =>
        let get key := default PNone (members !! key) in
        Ok (mkinputs (get "name") (get "birthday") (get "birth_time") (get "birth_location")
              (default (PStr "funny") (members !! "tone")))
    | JOther document => Raise (no_attribute document "get")
    end
  else
    form ← h_form r ;
    let get key := default PNone (form !! key) in
    Ok (mkinputs (get "name") (get "birthday") (get "birth_time") (get "birth_location")
          (default (PStr "funny") (form !! "tone"))).

(** The fields of a decoded request with string fields. *)
Record fields := mkfields {
  f_name : option string;
  f_birthday : option string;
  f_birth_time : option string;
  f_birth_location : option string;
  f_tone : option string }.

Definition read_fields (req : request) : fields :=
  let content_type := default "" (headers req !! "content-type") in
  if Str.contains "application/json" content_type
  then
    let payload := json_body req in
    mkfields (mjoin (payload !! "name")) (mjoin (payload !! "birthday"))
      (mjoin (payload !! "birth_time")) (mjoin (payload !! "birth_location"))
      (default (Some "funny") (payload !! "tone"))
  else
    let form := form_body req in
    mkfields (form !! "name") (form !! "birthday") (form !! "birth_time")
      (form !! "birth_location") (Some (default "funny" (form !! "tone"))).

Definition inputs_of (f : fields) : inputs :=
  mkinputs (py_of (f_name f)) (py_of (f_birthday f)) (py_of (f_birth_time f))
    (py_of (f_birth_location f)) (py_of (f_tone f)).

(** [str(e)]. *)
Definition str_exn (e : exn) : string :=
  match e with
  | HTTPException status detail => Str.of_Z status +:+ ": " +:+ detail
  | Error text => text
  end.

(** The heuristic of the [except] branch on [err_text]. *)
Definition is_quota_error (err_text : string) : bool :=
  Str.contains "quota" (Str.lower err_text) || Str.contains "429" err_text
  || Str.contains "insufficient_quota" err_text
  || Str.contains "not configured" (Str.lower err_text)
  || Str.contains "openai" (Str.lower err_text).

(** The body of the [try]: the call of the hosted model. *)
Definition primary_call : result string :=
  match openai_client W with
  | None => Raise (Error "OpenAI client not configured")
  | Some outcome =>
      content ← outcome ;
      match content with
      | Some text => Ok (Str.strip text)
      | None => Raise (Error "'NoneType' object has no attribute 'strip'")
      end
  end.

(** The [try] / [except] around the hosted model. *)
Definition generate (name : pyval) (sign : string) (tone : pyval)
  (natal_summary : option string) : result string :=
  match primary_call with
  | Ok generated => Ok generated
  | Raise e =>
      let err_text := str_exn e in
      if is_quota_error err_text
      then local_fallback (random W) name sign tone natal_summary (time_text W)
      else Raise (HTTPException 502 ("OpenAI API error: " +:+ str_exn e))
  end.

(** What the handler knows once the location step is over. *)
Record chart := mkchart {
  natal_summary : option string;
  houses : list house_cusp;
  astronomy_data : gmap string value }.

(** The block under [if lat is not None and lon is not None]. *)
Definition chart_of (bday : date) (birth_time : string) (coords : option (Q * Q))
  (tz_name : string) : chart :=
  match coords with
  | Some (lat, lon) =>
      mkchart
        (try_except
           (summary ← compute_natal_summary (astro W) bday birth_time lat lon tz_name ;
            Ok (Some summary))
           None)
        (try_except (compute_house_cusps (astro W) bday birth_time lat lon tz_name) [])
        (fetch_astronomy lat lon)
  | None => mkchart None [] ∅
  end.

(** The answer: JSON for a caller that asks for it, the page otherwise. *)
Definition respond (hdrs : gmap string string) (generated sign : string) (name : pyval)
  (c : chart) : result response :=
  let accept := default "" (hdrs !! "accept") in
  if Str.contains "application/json" accept
     || bool_decide (hdrs !! "x-requested-with" = Some "XMLHttpRequest")
  then Ok (JSONResponse (mkpayload generated (astronomy_data c) (houses c)))
  else
    _ ← render_index W generated sign name (natal_summary c) ;
    Ok (TemplateResponse generated sign name (natal_summary c)).

(** From the call of the model to the answer. *)
Definition finish (hdrs : gmap string string) (v : inputs) (sign : string) (c : chart)
  : result response :=
  generated ← generate (i_name v) sign (i_tone v) (natal_summary c) ;
  respond hdrs generated sign (i_name v) c.

(** The same step for a decoded request with string fields. *)
Definition generation_step (req : request) (f : fields) (sign : string) (c : chart)
  : result response :=
  finish (headers req) (inputs_of f) sign c.

(** [date.fromisoformat(birthday)] under its [try]: [None] when it raises,
    as it does on a value that is not a [str]. *)
Definition parse_birthday (birthday : pyval) : option date :=
  match birthday with
  | PStr s => date_fromisoformat W s
  | _ => None
  end.

(** [geocode_location(birth_location)]: a value that is not a [str] has no
    [strip]. *)
Definition locate (birth_location : pyval) (geocode_cache : gmap string cache_entry)
  : result (Q * Q * string) * gmap string cache_entry :=
  match birth_location with
  | PStr location => geocode_location location geocode_cache
  | _ => (Raise (no_attribute birth_location "strip"), geocode_cache)
  end.

(** The handler once the five values are read. A raised [HTTPException] is
    the HTTP error answer; any other exception is an unhandled error. *)
Definition handle (hdrs : gmap string string) (v : inputs)
  (geocode_cache : gmap string cache_entry)
  : result response * gmap string cache_entry :=
  match parse_birthday (i_birthday v) with
  | None => (Raise (HTTPException 400 "Invalid birthday format"), geocode_cache)
  | Some bday =>
      let sign := zodiac_sign (d_month bday) (d_day bday) in
      if negb (py_truthy (i_birth_time v)) || negb (py_truthy (i_birth_location v))
      then (Raise (HTTPException 400 "Both birth_time and birth_location are required"),
            geocode_cache)
      else
        let birth_time := py_str (i_birth_time v) in
        let '(located, geocode_cache) := locate (i_birth_location v) geocode_cache in
        match located with
        | Raise (HTTPException status detail) =>
            (Raise (HTTPException status detail), geocode_cache)
        | _ =>
            let '(coords, tz_name) :=
              match located with
              | Ok (lat, lon, tz_name) => (Some (lat, lon), tz_name)
              | Raise _ => (None, "UTC")
              end in
            let c := chart_of bday birth_time coords tz_name in
            (finish hdrs v sign c, geocode_cache)
        end
  end.

(** [POST /horoscope], from the request as it is received. *)
Definition post_horoscope (r : http_request) (geocode_cache : gmap string cache_entry)
  : result response * gmap string cache_entry :=
  match read_inputs r with
  | Ok v => handle (h_headers r) v geocode_cache
  | Raise e => (Raise e, geocode_cache)
  end.

(** [POST /horoscope] for a decoded request with string fields. *)
Definition horoscope (req : request) (geocode_cache : gmap string cache_entry)
  : result response * gmap string cache_entry :=
  handle (headers req) (inputs_of (read_fields req)) geocode_cache.

End Handler.

(** ** Prompt composer *)

Definition LF : string := String "010"%char EmptyString.

(** [x or 'unknown']. *)
Definition or_unknown (o : option string) : string :=
  if Str.truthy_opt o then or_empty o else "unknown".

(** [l.insert(i, x)] for a non-negative [i]: at the end when [i] is past it. *)
Definition py_insert {A : Type} (i : nat) (x : A) (l : list A) : list A :=
  (firstn i l ++ x :: skipn i l)%list.

(** Truth value of a value of the astronomy dictionary. *)
Definition truthy_value (v : value) : bool :=
  match v with
  | VNone => false
  | VStr s => Str.truthy s
  | VNum q => negb (Qeq_bool q 0)
  end.

(** The last item of [user_parts]. *)
Definition instructions : string :=
  "Instructions:" +:+ LF
  +:+ "- Output exactly one plain-text paragraph (no headings, lists, or JSON)." +:+ LF
  +:+ "- Produce 3–4 total sentences: 2–3 short, practical/advice-oriented sentences in the requested tone, then exactly one sentence briefly explaining why today is notable for the user." +:+ LF
  +:+ "- Include exactly one specific, simple action the user can take today (a single actionable suggestion)." +:+ LF
  +:+ "- If a first name is provided, you may address the user once at the start (e.g., 'Alex, ...')." +:+ LF
  +:+ "- Personalize using the natal summary and any astronomy data; avoid generic phrasing and reuse." +:+ LF
  +:+ "- Avoid medical, legal, or financial recommendations; if the user appears to request such guidance, decline gently and provide safe, general suggestions." +:+ LF
  +:+ "- Keep language concise, friendly, and non-judgmental." +:+ LF +:+ LF
  +:+ "Respond now with the requested text block.".

Section Prompt.

(** [str(x)] for a float [x], as the f-strings print it. *)
Variable float_str : Q -> string.

(** [f"{v}"]. *)
Definition str_value (v : value) : string :=
  match v with
  | VNone => "None"
  | VStr s => s
  | VNum q => float_str q
  end.

Definition astronomy_bits (astronomy_data : gmap string value) : list string :=
  let get key := default VNone (astronomy_data !! key) in
  ((if truthy_value (get "sunrise") then ["sunrise " +:+ str_value (get "sunrise")] else [])
   ++ (if truthy_value (get "sunset") then ["sunset " +:+ str_value (get "sunset")] else [])
   ++ (match get "moon_phase" with
       | VNone => []
       | v => ["moon phase " +:+ str_value v]
       end))%list.

(** The list [user_parts] when it is joined. *)
Definition user_parts (name : option string) (sign : string) (bday : date)
  (birth_time birth_location tone natal_summary : option string)
  (astronomy_data : gmap string value) : list string :=
  let user_parts :=
    ["User details:" +:+ LF +:+ "- Name: " +:+ or_unknown name +:+ LF
     +:+ "- Zodiac: " +:+ sign +:+ LF +:+ "- Birthday: " +:+ date_isoformat bday +:+ LF;
     "- Birth time: " +:+ or_unknown birth_time +:+ LF
     +:+ "- Birth location: " +:+ or_unknown birth_location +:+ LF
     +:+ "- Tone: " +:+ Str.of_opt tone +:+ LF +:+ LF] in
  let user_parts :=
    if Str.truthy_opt natal_summary
    then py_insert 1 ("Natal chart summary: " +:+ or_empty natal_summary +:+ LF +:+ LF) user_parts
    else user_parts in
  let user_parts :=
    if bool_decide (astronomy_data = ∅) then user_parts
    else
      match astronomy_bits astronomy_data with
      | [] => user_parts
      | astronomy_bits =>
          py_insert 2
            ("Astronomy today at the user's location: " +:+ Str.join ", " astronomy_bits
             +:+ LF +:+ LF)
            user_parts
      end in
  (user_parts ++ [instructions])%list.

Definition user_msg (name : option string) (sign : string) (bday : date)
  (birth_time birth_location tone natal_summary : option string)
  (astronomy_data : gmap string value) : string :=
  Str.join "" (user_parts name sign bday birth_time birth_location tone natal_summary
                 astronomy_data).

End Prompt.

(** * Reference notions

    The notions the properties are stated with: tables, intervals and
    formats as the specification words them, and a sample environment. *)

(** ** The table of the zodiac *)

(** The Western tropical ranges: sign, first day, last day, as (month, day). *)
Definition sign_ranges : list (string * (Z * Z) * (Z * Z)) :=
  [("aries", (3, 21), (4, 19)); ("taurus", (4, 20), (5, 20));
   ("gemini", (5, 21), (6, 20)); ("cancer", (6, 21), (7, 22));
   ("leo", (7, 23), (8, 22)); ("virgo", (8, 23), (9, 22));
   ("libra", (9, 23), (10, 22)); ("scorpio", (10, 23), (11, 21));
   ("sagittarius", (11, 22), (12, 21)); ("capricorn", (12, 22), (1, 19));
   ("aquarius", (1, 20), (2, 18)); ("pisces", (2, 19), (3, 20))].

(** A range covers the end of its first month and the start of its second. *)
Definition in_range (month day : Z) (first last : Z * Z) : bool :=
  (month =? first.1) && (first.2 <=? day) || (month =? last.1) && (day <=? last.2).

Definition days_in_month (month : Z) : Z :=
  nth (Z.to_nat month) [0; 31; 29; 31; 30; 31; 30; 31; 31; 30; 31; 30; 31] 0.

Definition valid_month_day (month day : Z) : bool :=
  (1 <=? month) && (month <=? 12) && (1 <=? day) && (day <=? days_in_month month).

(** The sign whose range ends the day before [first] starts. *)
Definition previous_sign (name : string) : string :=
  match find (fun '(other, n) => String.eqb n name)
          (combine ("pisces" :: map (fun e => e.1.1) sign_ranges) (map (fun e => e.1.1) sign_ranges)) with
  | Some (prev, _) => prev
  | None => ""
  end.

Definition range_agrees (month day : Z) (e : string * (Z * Z) * (Z * Z)) : bool :=
  Bool.eqb (in_range month day e.1.2 e.2) (String.eqb (zodiac_sign month day) e.1.1).

Definition boundary_agrees (e : string * (Z * Z) * (Z * Z)) : bool :=
  let '(name, (m, d), _) := e in
  String.eqb (zodiac_sign m d) name && String.eqb (zodiac_sign m (d - 1)) (previous_sign name).

Definition month_day_grid : list (Z * Z) :=
  list_prod (map Z.of_nat (seq 1 12)) (map Z.of_nat (seq 1 31)).

(** ** Phases of the moon *)

Definition phase_names : list string :=
  ["New Moon"; "Waxing Crescent"; "First Quarter"; "Waxing Gibbous";
   "Full Moon"; "Waning Gibbous"; "Last Quarter"; "Waning Crescent"].

(** Bucket [k] of eight buckets of width 1/8, centred on [k/8] on the circle
    of phases: [k/8 - 1/16, k/8 + 1/16), taken modulo one turn. *)
Definition in_bucket (k : nat) (phase : Q) : Prop :=
  let centre := (Z.of_nat k # 8)%Q in
  (centre - (1 # 16) <= phase /\ phase < centre + (1 # 16))%Q
  \/ (centre - (1 # 16) <= phase - 1 /\ phase - 1 < centre + (1 # 16))%Q.

Definition elapsed_days (utcnow : datetime) : Q :=
  (total_seconds_between (at_noon utcnow) ref_new_moon / 86400)%Q.

Definition fractional_part (x : Q) : Q := (x - inject_Z (Qfloor x))%Q.

(** ** Case-insensitive containment *)

(** [c] counts for the lower-case character [d]: it is [d], or [d] is a
    letter and [c] its capital. *)
Definition same_letter (c d : ascii) : Prop :=
  c = d
  \/ ((97 <= nat_of_ascii d)%nat /\ (nat_of_ascii d <= 122)%nat
      /\ nat_of_ascii d = (nat_of_ascii c + 32)%nat).

(** [needle], a word in lower case, is read at the start of the text up to
    the case of the letters. Two characters outside ASCII count as letters,
    as they do for Python: the Kelvin sign (the bytes E2 84 AA) for "k", and
    the capital I with a dot above (C4 B0) for an "i" that ends the word. *)
Inductive ci_prefix : string -> string -> Prop :=
  | ci_done (s : string) : ci_prefix "" s
  | ci_letter (c d : ascii) (needle s : string) :
      same_letter c d -> ci_prefix needle s -> ci_prefix (String d needle) (String c s)
  | ci_kelvin (needle s : string) :
      ci_prefix needle s ->
      ci_prefix (String "k" needle) (String "226" (String "132" (String "170" s)))
  | ci_dotted (s : string) :
      ci_prefix "i" (String "196" (String "176" s)).

(** [needle] occurs in [s] up to the case of the letters. *)
Definition ci_in (needle s : string) : Prop :=
  exists pre post, s = pre +:+ post /\ ci_prefix needle post.

(** A word of ASCII characters without capitals. *)
Definition lower_word (needle : string) : bool :=
  forallb (fun d => Nat.ltb (nat_of_ascii d) 128 && negb (Str.is_upper d))
    (list_ascii_of_string needle).

(** ** Tone and chart feature *)

(** The tone is a text that contains [needle] up to case. *)
Definition tone_ci (needle : string) (tone : pyval) : Prop :=
  exists t, tone = PStr t /\ ci_in needle t.

Inductive bucket := Serious | Inspirational | Playful.

(** The sentences of each bucket, as the generator words them. *)
Definition reference_openings (b : bucket) (display sign transit chart_feature : string) : list string :=
  match b with
  | Serious =>
      [display +:+ "Today, " +:+ sign +:+ " energy is shaped by " +:+ transit +:+ ", especially as it interacts with your " +:+ chart_feature +:+ ".";
       display +:+ sign +:+ " focus favors consistency and discipline, with " +:+ transit +:+ " influencing your " +:+ chart_feature +:+ ".";
       display +:+ "Your " +:+ sign +:+ " instincts lean toward structure and follow-through, as " +:+ transit +:+ " activates your " +:+ chart_feature +:+ ".";
       display +:+ "A grounded mood prevails for " +:+ sign +:+ ", thanks to " +:+ transit +:+ " and your " +:+ chart_feature +:+ "."]
  | Inspirational =>
      [display +:+ "The stars nudge a quiet confidence in your " +:+ sign +:+ " nature today, as " +:+ transit +:+ " highlights your " +:+ chart_feature +:+ ".";
       display +:+ "Your " +:+ sign +:+ " spark feels brighter, like a candle finding fresh air as " +:+ transit +:+ " energizes your " +:+ chart_feature +:+ ".";
       display +:+ "A hopeful current runs through your " +:+ sign +:+ " spirit, inspired by " +:+ transit +:+ " and your " +:+ chart_feature +:+ ".";
       display +:+ "Momentum builds for " +:+ sign +:+ " as " +:+ transit +:+ " opens new possibilities for your " +:+ chart_feature +:+ "."]
  | Playful =>
      [display +:+ "Your " +:+ sign +:+ " vibe today is playful and a little impatient, with " +:+ transit +:+ " stirring your " +:+ chart_feature +:+ ".";
       display +:+ "Your " +:+ sign +:+ " mood is mischievous, like it had too much coffee — blame " +:+ transit +:+ " for your " +:+ chart_feature +:+ "!";
       display +:+ "Your " +:+ sign +:+ " energy is bouncy and slightly chaotic, thanks to " +:+ transit +:+ " and your " +:+ chart_feature +:+ ".";
       display +:+ "A quirky twist for " +:+ sign +:+ " as " +:+ transit +:+ " adds excitement to your " +:+ chart_feature +:+ "."]
  end.

Definition reference_advices (b : bucket) (display sign transit chart_feature : string) : list string :=
  match b with
  | Serious =>
      ["Choose one small task and finish it — progress builds momentum, especially for your " +:+ chart_feature +:+ ".";
       "Pick a single priority and complete it without multitasking; your " +:+ chart_feature +:+ " will benefit.";
       "Commit to one simple routine and keep it clean and doable, honoring your " +:+ chart_feature +:+ ".";
       "Focus on practical goals and avoid distractions; " +:+ transit +:+ " supports your " +:+ chart_feature +:+ "."]
  | Inspirational =>
      ["Try something that stretches you a little — a short, bold step will teach you more than a big plan, especially for your " +:+ chart_feature +:+ ".";
       "Let a small brave action open the door to a bigger story; your " +:+ chart_feature +:+ " is ready.";
       "Take one gentle leap and let it echo through your day, guided by your " +:+ chart_feature +:+ ".";
       "Embrace change and let inspiration guide you; " +:+ transit +:+ " empowers your " +:+ chart_feature +:+ "."]
  | Playful =>
      ["Do one unexpected, harmless thing that sparks joy — a tiny risk with upside for your " +:+ chart_feature +:+ ".";
       "Try a small plot twist in your routine and see what it unlocks for your " +:+ chart_feature +:+ ".";
       "Give yourself one goofy detour and keep the rest simple, honoring your " +:+ chart_feature +:+ ".";
       "Let spontaneity lead the way and enjoy the ride; " +:+ transit +:+ " energizes your " +:+ chart_feature +:+ "."]
  end.

Definition reference_whys (b : bucket) (display sign transit chart_feature : string) : list string :=
  match b with
  | Serious =>
      [transit +:+ " brings clarity and rewards measured effort, especially for your " +:+ chart_feature +:+ ".";
       "Clarity grows when your effort is focused and measured, activating your " +:+ chart_feature +:+ ".";
       "Small, steady wins reduce friction and increase confidence in your " +:+ chart_feature +:+ ".";
       "This keeps stress low and creates clear results to build on, especially under " +:+ transit +:+ " and your " +:+ chart_feature +:+ "."]
  | Inspirational =>
      [transit +:+ " reveals strengths and reduces fear of failure, especially for your " +:+ chart_feature +:+ ".";
       "Momentum arrives when you choose possibility over perfection, activating your " +:+ chart_feature +:+ ".";
       "A tiny risk can light a path you did not know existed, especially with " +:+ transit +:+ " energizing your " +:+ chart_feature +:+ ".";
       "Today is notable for " +:+ sign +:+ " because " +:+ transit +:+ " encourages growth in your " +:+ chart_feature +:+ "."]
  | Playful =>
      [transit +:+ " breaks routine and creates space for new opportunities in your " +:+ chart_feature +:+ ".";
       "Surprise adds fuel to your momentum without derailing the day, especially for your " +:+ chart_feature +:+ ".";
       "A playful shake-up makes the ordinary feel magnetic, especially with " +:+ transit +:+ " in play for your " +:+ chart_feature +:+ ".";
       "Today is notable for " +:+ sign +:+ " because " +:+ transit +:+ " brings unexpected fun to your " +:+ chart_feature +:+ "."]
  end.

(** The three lists of sentences of a bucket. *)
Definition reference_templates (b : bucket) (display sign transit chart_feature : string)
  : templates :=
  {| openings := reference_openings b display sign transit chart_feature;
     advices := reference_advices b display sign transit chart_feature;
     whys := reference_whys b display sign transit chart_feature |}.

(** The name as the paragraph opens with it. *)
Definition greeting (name : pyval) : string :=
  match name with
  | PStr (String c n) => String c n +:+ ", "
  | _ => ""
  end.

(** The summary as the paragraph quotes it. *)
Definition summary_note (natal_summary : option string) : string :=
  match natal_summary with
  | Some (String c s) => " (" +:+ String c s +:+ ")"
  | _ => ""
  end.

(** The white-space characters of Unicode, in UTF-8: U+0009 to U+000D,
    U+001C to U+0020, U+0085, U+00A0, U+1680, U+2000 to U+200A, U+2028,
    U+2029, U+202F, U+205F and U+3000. *)
Definition whitespace : list string :=
  map Str.bytes
    [[9]; [10]; [11]; [12]; [13]; [28]; [29]; [30]; [31]; [32];
     [194; 133]; [194; 160]; [225; 154; 128];
     [226; 128; 128]; [226; 128; 129]; [226; 128; 130]; [226; 128; 131];
     [226; 128; 132]; [226; 128; 133]; [226; 128; 134]; [226; 128; 135];
     [226; 128; 136]; [226; 128; 137]; [226; 128; 138];
     [226; 128; 168]; [226; 128; 169]; [226; 128; 175]; [226; 129; 159];
     [227; 128; 128]].

(** A text made of white-space characters only (the empty one included). *)
Definition blank_text (f : string) : Prop :=
  exists ws, Forall (fun w => In w whitespace) ws /\ f = fold_right String.append "" ws.

(** [clauses] is [pieces] without its blank texts, in the same order. *)
Inductive kept_clauses : list string -> list string -> Prop :=
  | kept_nil : kept_clauses [] []
  | kept_drop (f : string) (pieces clauses : list string) :
      blank_text f -> kept_clauses pieces clauses -> kept_clauses (f :: pieces) clauses
  | kept_keep (f : string) (pieces clauses : list string) :
      ~ blank_text f -> kept_clauses pieces clauses ->
      kept_clauses (f :: pieces) (f :: clauses).

(** Among the [n] values a draw below [n] can take, the number of those for
    which the outcome is [c]. *)
Definition draws_giving (outcome : nat -> string) (n : nat) (c : string) : nat :=
  length (List.filter (fun i => String.eqb (outcome i) c) (seq 0 n)).

(** A segment made of white space only (the empty one included). *)
Definition whitespace_only (f : string) : bool := Str.blank f.

(** The clauses of the summary: its pieces between semicolons, the ones made
    of white space only dropped. *)
Definition segments (natal_summary : option string) : list string :=
  List.filter (fun f => negb (whitespace_only f)) (Str.split ";" (or_empty natal_summary)).

(** ** Quota and configuration errors *)



(** ** Astrology computations: what they are expected to return *)

(** The sign of an ecliptic longitude. *)
Definition sign_of (deg : Q) : string :=
  nth (Z.to_nat (Num.Qfloordiv (Num.Qmod deg 360) 30)) signs "".

(** House [k + 1], read at position [offset + k] of the cusp array. *)
Definition house_of (cusps : list Q) (offset k : nat) : house_cusp :=
  let deg := nth (offset + k) cusps 0%Q in
  mkhouse (Z.of_nat k + 1) (sign_of deg) (Num.round1 (Num.Qmod deg 30)).

(** The ephemeris returns at least twelve cusps (twelve, or thirteen with an
    unused first entry). *)
Definition ephemeris_cusps_ok (L : astro_lib) : Prop :=
  forall jd lat lon cusps ascmc,
    swe_houses L jd lat lon = Ok (cusps, ascmc) -> (12 <= length cusps)%nat.

(** The entry of one body, when its position can be computed. *)
Definition planet_entry (L : astro_lib) (jd : Q) (body : string * Z) : option string :=
  match swe_calc_ut L jd body.2 with
  | Ok lonp =>
      Some (body.1 +:+ " in " +:+ sign_of lonp +:+ " (" +:+ Num.format_1f lonp +:+ "°)")
  | Raise _ => None
  end.

(** The ascendant clause, when the ascendant can be computed. *)
Definition ascendant_clause (L : astro_lib) (jd lat lon : Q) : list string :=
  match swe_houses L jd lat lon with
  | Ok (_, asc_deg :: _) =>
      ["Ascendant: " +:+ sign_of asc_deg +:+ " (" +:+ Num.format_1f asc_deg +:+ "°)"]
  | _ => []
  end.

(** The single clause listing the first six computed bodies. *)
Definition planets_clause (L : astro_lib) (jd : Q) : list string :=
  match omap (planet_entry L jd) planets with
  | [] => []
  | entries => ["Planets: " +:+ Str.join ", " (firstn 6 entries)]
  end.

(** The summary with one clause per body, as a list joined by semicolons. *)
Definition clause_per_body_summary (L : astro_lib) (jd lat lon : Q) : string :=
  Str.join "; " (ascendant_clause L jd lat lon ++ firstn 6 (omap (planet_entry L jd) planets)).

(** ** A sample environment

    One concrete behaviour of the collaborators, on which the statements
    below are evaluated. *)

Module Sample.

Definition digit (c : ascii) : option Z :=
  let n := nat_of_ascii c in
  if Nat.leb 48 n && Nat.leb n 57 then Some (Z.of_nat (n - 48)) else None.

Fixpoint number (s : string) (acc : Z) : option Z :=
  match s with
  | EmptyString => Some acc
  | String c t => d ← digit c ; number t (acc * 10 + d)
  end.

(** The decimal field of [len] characters at [start]. *)
Definition field (s : string) (start len : nat) : option Z :=
  let t := substring start len s in
  if Nat.eqb (String.length t) len then number t 0 else None.

Definition month_length (y m : Z) : Z :=
  if (m =? 2) && negb (is_leap y) then 28
  else nth (Z.to_nat m) [0; 31; 29; 31; 30; 31; 30; 31; 31; 30; 31; 30; 31] 0.

(** YYYY-MM-DD. *)
Definition parse_date (s : string) : option date :=
  if Nat.eqb (String.length s) 10
     && String.eqb (substring 4 1 s) "-" && String.eqb (substring 7 1 s) "-"
  then
    y ← field s 0 4 ; m ← field s 5 2 ; d ← field s 8 2 ;
    if (1 <=? y) && (1 <=? m) && (m <=? 12) && (1 <=? d) && (d <=? month_length y m)
    then Some (mkdate y m d) else None
  else None.

(** YYYY-MM-DDTHH:MM. *)
Definition parse_datetime (s : string) : option datetime :=
  if Nat.eqb (String.length s) 16
     && String.eqb (substring 10 1 s) "T" && String.eqb (substring 13 1 s) ":"
  then
    d ← parse_date (substring 0 10 s) ; h ← field s 11 2 ; mi ← field s 14 2 ;
    if (h <=? 23) && (mi <=? 59)
    then Some (mkdatetime (d_year d) (d_month d) (d_day d) h mi 0 0) else None
  else None.

(** Two known zones, both taken at offset zero; twelve cusps; Mercury
    cannot be computed. *)
Definition lib : astro_lib := {|
  datetime_fromisoformat := parse_datetime;
  zone := string;
  ZoneInfo := fun name =>
    if String.eqb name "UTC" || String.eqb name "Europe/Paris" then Ok name
    else Raise (Error ("No time zone found with key " +:+ name));
  astimezone := fun _ _ dt => Ok dt;
  swe_julday := fun y m d h =>
    Ok (inject_Z (toordinal y m d) + (17214245 # 10) + h / 24)%Q;
  swe_houses := fun _ _ _ =>
    Ok ([101 # 2; 81; 111; 140; 170; 201; 461 # 2; 261; 291; 320; 350; 21]%Q,
        [1234 # 10; 200; 210]%Q);
  swe_calc_ut := fun _ body =>
    if body =? 2 then Raise (Error "ephemeris file not found")
    else Ok (inject_Z (body * 37) + (123 # 10))%Q |}.

(** A linear congruential generator. *)
Definition lcg : random_lib := {|
  rng := N;
  sha256_int := fun text => Ok (N.of_nat (String.length text));
  random_seed := fun n => n;
  randbelow := fun n g =>
    (N.to_nat (g mod N.of_nat n),
     ((g * 6364136223846793005 + 1442695040888963407) mod 2 ^ 64)%N);
  randbelow_lt := fun n g H =>
    ltac:(cbn [fst]; pose proof (N.mod_lt g (N.of_nat n)); lia) |}.

Definition paris : result (http_response (list candidate)) :=
  Ok (mkresponse 200 (Ok [mkcandidate (Ok (4885 # 100)) (Ok (235 # 100))])).

Definition world_with (geo : result (http_response (list candidate)))
  (client : option (result (option string))) : world := {|
  astro := lib;
  random := lcg;
  date_fromisoformat := parse_date;
  time_time := 1800000000;
  time_text := "1800000000.0";
  utcnow := mkdatetime 2027 2 6 9 30 0 0;
  nominatim_get := fun _ => geo;
  timezone_at := fun _ _ => Ok (Some "Europe/Paris");
  open_meteo_get := fun _ _ => Raise (Error "timed out");
  openai_client := client;
  render_index := fun _ _ _ _ => Ok tt |}.

Definition json_headers : gmap string string :=
  list_to_map [("content-type", "application/json"); ("accept", "application/json")].

(** The request of the end-to-end example. *)
Definition request_paris : request := {|
  headers := json_headers;
  json_body := list_to_map [("birthday", Some "1990-06-15"); ("birth_time", Some "14:30");
                            ("birth_location", Some "Paris, France"); ("tone", Some "funny")];
  form_body := ∅ |}.

(** A request with neither birthday nor birth time. *)
Definition request_no_birthday : request := {|
  headers := json_headers;
  json_body := list_to_map [("birth_location", Some "Paris, France")];
  form_body := ∅ |}.

(** A generator whose draws are all [i] (taken below the bound). *)
Definition fixed_draw (i : nat) : random_lib := {|
  rng := unit;
  sha256_int := fun _ => Ok 0%N;
  random_seed := fun _ => tt;
  randbelow := fun n g => (Nat.modulo i n, g);
  randbelow_lt := fun n g H =>
    ltac:(cbn [fst]; apply Nat.mod_upper_bound; lia) |}.

(** A JSON request whose body is empty: [request.json()] raises. *)
Definition request_empty_body : http_request := {|
  h_headers := json_headers;
  h_json := Raise (Error "Expecting value: line 1 column 1 (char 0)");
  h_form := Ok ∅ |}.

(** A JSON request whose body is a list. *)
Definition request_list_body : http_request := {|
  h_headers := json_headers;
  h_json := Ok (JOther (POther "list" "[]" false));
  h_form := Ok ∅ |}.

(** A JSON request whose tone is the number 123. *)
Definition request_numeric_tone : http_request := {|
  h_headers := json_headers;
  h_json := Ok (JObject (list_to_map
              [("name", PStr "Alex"); ("birthday", PStr "1990-06-15");
               ("birth_time", PStr "14:30"); ("birth_location", PStr "Paris, France");
               ("tone", POther "int" "123" true)]));
  h_form := Ok ∅ |}.

End Sample.

(** ** Further notions *)

(** The number of houses the loop produces for an array of [len] cusps. *)
Definition house_count (len : nat) : nat :=
  if Nat.leb 13 len then 12%nat else Nat.min 12 len.

(** The line about the sky, or nothing. *)
Definition astronomy_line (float_str : Q -> string) (astronomy_data : gmap string value)
  : list string :=
  match astronomy_bits float_str astronomy_data with
  | [] => []
  | bits => ["Astronomy today at the user's location: " +:+ Str.join ", " bits +:+ LF +:+ LF]
  end.

(** The text holds no semicolon. *)
Definition semicolon_free (s : string) : Prop := ~ In ";"%char (list_ascii_of_string s).

(** A clause of the summary holds no semicolon and is not blank. *)
Definition plain_clause (c : string) : Prop :=
  semicolon_free c /\ whitespace_only c = false.

(** * Properties *)

(** ** Zodiac classifier *)

Lemma grid_complete month day :
  1 <= month <= 12 -> 1 <= day <= 31 -> In (month, day) month_day_grid.
Proof.
  intros Hm Hd. unfold month_day_grid. apply in_prod.
  - apply in_map_iff. exists (Z.to_nat month). split; [lia|]. apply in_seq. lia.
  - apply in_map_iff. exists (Z.to_nat day). split; [lia|]. apply in_seq. lia.
Qed.

Lemma grid_checked :
  forallb (fun '(m, d) => forallb (range_agrees m d) sign_ranges) month_day_grid = true.
Proof. vm_compute. reflexivity. Qed.

Lemma days_in_month_le month : days_in_month month <= 31.
Proof.
  unfold days_in_month.
  destruct (Z.to_nat month) as [|[|[|[|[|[|[|[|[|[|[|[|[|[|n]]]]]]]]]]]]]]; simpl; lia.
Qed.

(** C6. For every valid calendar pair (month 1..12, day valid for the month)
    the classifier returns the name of exactly the range of the Western
    tropical table that contains the date: a range of the table contains the
    date if and only if the classifier returns its sign, so the twelve ranges
    neither overlap nor leave a gap. *)
Theorem zodiac_sign_partition (month day : Z) (name : string) (first last : Z * Z) :
  valid_month_day month day = true ->
  In (name, first, last) sign_ranges ->
  (in_range month day first last = true <-> zodiac_sign month day = name)
  /\ In (zodiac_sign month day) signs
  /\ forallb boundary_agrees sign_ranges = true
  /\ zodiac_sign 3 20 = "pisces" /\ zodiac_sign 3 21 = "aries".
Proof.
  intros Hv Hin.
  assert (Hgrid : In (month, day) month_day_grid).
  { unfold valid_month_day in Hv. pose proof (days_in_month_le month).
    apply grid_complete; lia. }
  pose proof grid_checked as Hall.
  rewrite forallb_forall in Hall. specialize (Hall _ Hgrid). cbv beta iota in Hall.
  split; [|split; [|split; [vm_compute; reflexivity | split; reflexivity]]].
  - rewrite forallb_forall in Hall. specialize (Hall _ Hin).
    unfold range_agrees in Hall. cbn [fst snd] in Hall.
    apply Bool.eqb_prop in Hall. rewrite Hall. apply String.eqb_eq.
  - unfold zodiac_sign, signs.
    repeat match goal with
           | |- context [if ?b then _ else _] => destruct b
           end; simpl; tauto.
Qed.

Lemma zodiac_sign_partition_witness :
  (in_range 3 21 (3, 21) (4, 19) = true <-> zodiac_sign 3 21 = "aries")
  /\ In (zodiac_sign 3 21) signs
  /\ forallb boundary_agrees sign_ranges = true
  /\ zodiac_sign 3 20 = "pisces" /\ zodiac_sign 3 21 = "aries".
Proof.
  apply (zodiac_sign_partition 3 21 "aries" (3, 21) (4, 19)).
  - reflexivity.
  - simpl. tauto.
Defined.

(** ** Moon phase names *)

Lemma Qltb_cases (x y : Q) :
  (x < y)%Q /\ Num.Qltb x y = true \/ (y <= x)%Q /\ Num.Qltb x y = false.
Proof.
  unfold Num.Qltb. destruct (Qle_bool y x) eqn:E.
  - right. split; [apply Qle_bool_iff, E | reflexivity].
  - left. split; [|reflexivity]. apply Qnot_le_lt. intros H.
    apply Qle_bool_iff in H. congruence.
Qed.

Lemma Qgeb_cases (x y : Q) :
  (y <= x)%Q /\ Num.Qgeb x y = true \/ (x < y)%Q /\ Num.Qgeb x y = false.
Proof.
  unfold Num.Qgeb. destruct (Qle_bool y x) eqn:E.
  - left. split; [apply Qle_bool_iff, E | reflexivity].
  - right. split; [|reflexivity]. apply Qnot_le_lt. intros H.
    apply Qle_bool_iff in H. congruence.
Qed.

Ltac bucket_case :=
  cbv [in_bucket Z.of_nat Pos.of_succ_nat Pos.succ nth phase_names];
  split;
  [ intros [[? ?]|[? ?]]; first [reflexivity | exfalso; lra]
  | intros Heq; first [discriminate Heq | left; split; lra | right; split; lra] ].

Ltac below phase t :=
  destruct (Qltb_cases phase t) as [[? ->]|[? ->]]; cbn [orb].

Lemma phase_title_bucket (phase : Q) (k : nat) :
  (0 <= phase)%Q -> (phase < 1)%Q -> (k < 8)%nat ->
  (in_bucket k phase <-> phase_title phase = nth k phase_names "").
Proof.
  intros H0 H1 Hk. unfold phase_title.
  below phase (625 # 10000);
    [|destruct (Qgeb_cases phase (9375 # 10000)) as [[? ->]|[? ->]];
      [|below phase (1875 # 10000);
        [|below phase (3125 # 10000);
          [|below phase (4375 # 10000);
            [|below phase (5625 # 10000);
              [|below phase (6875 # 10000);
                [|below phase (8125 # 10000)]]]]]]];
    do 8 (destruct k as [|k]; [bucket_case|]); lia.
Qed.

Lemma phase_title_named (phase : Q) : In (phase_title phase) phase_names.
Proof.
  unfold phase_title, phase_names.
  repeat match goal with
         | |- context [if ?b then _ else _] => destruct b
         end; simpl; tauto.
Qed.

(** C5. The eight name buckets partition [0,1): a phase in [0,1) lies in
    bucket [k] (width 1/8, centred on k/8, the first one wrapping around the
    ends) if and only if it is given the [k]-th name; the names are pairwise
    distinct, so every phase gets exactly one of them, and both 0.0 and 0.999
    are "New Moon". *)
Theorem phase_buckets_partition (phase : Q) (k : nat) :
  (0 <= phase)%Q -> (phase < 1)%Q -> (k < 8)%nat ->
  (in_bucket k phase <-> phase_title phase = nth k phase_names "")
  /\ In (phase_title phase) phase_names
  /\ NoDup phase_names
  /\ phase_title 0 = "New Moon" /\ phase_title (999 # 1000) = "New Moon".
Proof.
  intros H0 H1 Hk. split; [apply phase_title_bucket; assumption|].
  split; [apply phase_title_named|].
  split; [|split; reflexivity].
  apply (bool_decide_unpack _). vm_compute. exact I.
Qed.

Lemma phase_buckets_partition_witness :
  (in_bucket 0 (999 # 1000) <-> phase_title (999 # 1000) = nth 0 phase_names "")
  /\ In (phase_title (999 # 1000)) phase_names
  /\ NoDup phase_names
  /\ phase_title 0 = "New Moon" /\ phase_title (999 # 1000) = "New Moon".
Proof.
  apply (phase_buckets_partition (999 # 1000) 0); [discriminate | reflexivity | lia].
Defined.

(** ** Moon phase value *)

Lemma Qmod_fraction (x y : Q) :
  ~ (y == 0)%Q -> (Num.Qmod x y / y == fractional_part (x / y))%Q.
Proof. intros Hy. unfold Num.Qmod, fractional_part. field. exact Hy. Qed.

Lemma fractional_part_range (x : Q) : (0 <= fractional_part x)%Q /\ (fractional_part x < 1)%Q.
Proof.
  unfold fractional_part. pose proof (Qfloor_le x) as Hlo. pose proof (Qlt_floor x) as Hhi.
  rewrite inject_Z_plus in Hhi. change (inject_Z 1) with 1%Q in Hhi. split; lra.
Qed.

Lemma round_half_even_comp (x y : Q) :
  (x == y)%Q -> Num.round_half_even x = Num.round_half_even y.
Proof.
  intros H. unfold Num.round_half_even.
  assert (Hf : Qfloor x = Qfloor y) by (apply Qfloor_comp, H).
  assert (Hc : (x - inject_Z (Qfloor x) ?= 1 # 2)%Q = (y - inject_Z (Qfloor y) ?= 1 # 2)%Q).
  { apply Qcompare_comp; [|reflexivity]. rewrite Hf, H. reflexivity. }
  rewrite Hc, Hf. reflexivity.
Qed.

Lemma round_half_even_cases (x : Q) :
  let f := Qfloor x in
  let r := (x - inject_Z f)%Q in
  (Num.round_half_even x = f /\ ((r < 1 # 2)%Q \/ (r == 1 # 2)%Q /\ Z.even f = true))
  \/ (Num.round_half_even x = f + 1 /\ ((1 # 2 < r)%Q \/ (r == 1 # 2)%Q /\ Z.even f = false)).
Proof.
  unfold Num.round_half_even.
  destruct (Qcompare_spec (x - inject_Z (Qfloor x)) (1 # 2)) as [E|E|E].
  - destruct (Z.even (Qfloor x)); [left|right]; split; try reflexivity; right; split; auto.
  - left. split; [reflexivity|left; exact E].
  - right. split; [reflexivity|left; exact E].
Qed.

Lemma synodic_nonzero : ~ (synodic == 0)%Q.
Proof. discriminate. Qed.

Lemma Qfloor_bounds (x : Q) (n : Z) :
  (0 <= x)%Q -> (x < inject_Z n)%Q -> 0 <= Qfloor x < n.
Proof.
  intros H0 Hn. pose proof (Qfloor_le x) as Hlo. pose proof (Qlt_floor x) as Hhi.
  split.
  - assert (H : (inject_Z 0 < inject_Z (Qfloor x + 1))%Q) by (change (inject_Z 0) with 0%Q; lra).
    rewrite <- Zlt_Qlt in H. lia.
  - assert (H : (inject_Z (Qfloor x) < inject_Z n)%Q) by lra.
    rewrite <- Zlt_Qlt in H. exact H.
Qed.

(** C4, amended. For every UTC instant the returned phase is the fractional
    part of (days elapsed since the reference new moon, the instant being
    moved to 12:00 of its day) / 29.53058867, rounded to three decimals; it
    lies in the closed interval [0,1], and it is 1 exactly when the
    unrounded fraction is at least 0.9995. *)
Theorem moon_phase_value (utcnow : datetime) :
  let r := get_local_moon_phase utcnow in
  let fraction := fractional_part (elapsed_days utcnow / synodic) in
  (moon_phase r == Num.round3 fraction)%Q
  /\ (0 <= moon_phase r)%Q /\ (moon_phase r <= 1)%Q
  /\ ((moon_phase r == 1)%Q <-> (9995 # 10000 <= fraction)%Q)
  /\ moon_phase_name r = phase_title (moon_phase r).
Proof.
  intros r fraction.
  assert (Hr : (moon_phase r == Num.round3 fraction)%Q).
  { unfold r, get_local_moon_phase, Num.round3. cbn [moon_phase].
    fold (elapsed_days utcnow).
    rewrite (round_half_even_comp _ (fraction * 1000)); [reflexivity|].
    unfold fraction. rewrite (Qmod_fraction _ _ synodic_nonzero). reflexivity. }
  split; [exact Hr|].
  destruct (fractional_part_range (elapsed_days utcnow / synodic)) as [Hlo Hhi].
  fold fraction in Hlo, Hhi.
  assert (Hy0 : (0 <= fraction * 1000)%Q) by lra.
  assert (Hy1 : (fraction * 1000 < inject_Z 1000)%Q) by (change (inject_Z 1000) with 1000%Q; lra).
  pose proof (Qfloor_bounds _ _ Hy0 Hy1) as Hf.
  pose proof (Qfloor_le (fraction * 1000)) as Hfl.
  pose proof (Qlt_floor (fraction * 1000)) as Hfu.
  rewrite inject_Z_plus in Hfu. change (inject_Z 1) with 1%Q in Hfu.
  pose proof (round_half_even_cases (fraction * 1000)) as Hc. cbv zeta in Hc.
  unfold Num.round3 in Hr.
  remember (Qfloor (fraction * 1000)) as f eqn:Ef.
  remember (Num.round_half_even (fraction * 1000)) as n eqn:En.
  clear Ef En.
  assert (Hn : 0 <= n <= 1000) by (destruct Hc as [[-> _]|[-> _]]; lia).
  assert (Hn0 : (inject_Z 0 <= inject_Z n)%Q) by (rewrite <- Zle_Qle; lia).
  assert (Hn1 : (inject_Z n <= inject_Z 1000)%Q) by (rewrite <- Zle_Qle; lia).
  change (inject_Z 0) with 0%Q in Hn0. change (inject_Z 1000) with 1000%Q in Hn1.
  unfold Qdiv in Hr. change (/ 1000)%Q with (1 # 1000)%Q in Hr.
  split; [rewrite Hr; lra|]. split; [rewrite Hr; lra|].
  split; [|reflexivity].
  rewrite Hr. split.
  - intros H1.
    assert (Hn' : (inject_Z n == inject_Z 1000)%Q) by (change (inject_Z 1000) with 1000%Q; lra).
    apply (proj1 (inject_Z_injective _ _)) in Hn'.
    destruct Hc as [[Hc _]|[Hc Hc']]; [lia|].
    assert (Hf9 : f = 999) by lia. rewrite Hf9 in Hc'.
    change (inject_Z 999) with 999%Q in Hc'. destruct Hc' as [?|[? _]]; lra.
  - intros H9.
    assert (Hf9 : f = 999).
    { assert (H : (inject_Z 999 < inject_Z (f + 1))%Q).
      { rewrite inject_Z_plus. change (inject_Z 999) with 999%Q. change (inject_Z 1) with 1%Q. lra. }
      rewrite <- Zlt_Qlt in H. lia. }
    assert (Hn' : n = 1000).
    { destruct Hc as [[Hc Hc']|[Hc _]]; [|lia].
      rewrite Hf9 in Hc'. change (inject_Z 999) with 999%Q in Hc'.
      destruct Hc' as [?|[_ ?]]; [lra|discriminate]. }
    rewrite Hn'. reflexivity.
Qed.

(** C4, counterexample: on 2027-02-06 the fraction is about 0.99977 and the
    returned phase is 1.0, outside [0,1). *)
Lemma moon_phase_not_below_one :
  ~ (moon_phase (get_local_moon_phase (mkdatetime 2027 2 6 9 30 0 0)) < 1)%Q.
Proof. vm_compute. discriminate. Qed.

(** ** Substrings and case *)

Lemma append_assoc (a b c : string) : (a +:+ b) +:+ c = a +:+ b +:+ c.
Proof.
  induction a as [|x a IH]; [reflexivity|].
  change (String x ((a +:+ b) +:+ c) = String x (a +:+ b +:+ c)). rewrite IH. reflexivity.
Qed.

Lemma append_cons (c : ascii) (a b : string) : String c a +:+ b = String c (a +:+ b).
Proof. reflexivity. Qed.

Lemma prefix_nil (s : string) : String.prefix "" s = true.
Proof. destruct s; reflexivity. Qed.

Lemma prefix_cons (d : ascii) (n : string) (x : ascii) (r : string) :
  String.prefix (String d n) (String x r) = true <-> d = x /\ String.prefix n r = true.
Proof.
  simpl. destruct (Ascii.ascii_dec d x) as [->|Hne]; [tauto|].
  split; [discriminate | intros [H _]; contradiction].
Qed.

Lemma prefix_spec (n s : string) :
  String.prefix n s = true <-> exists post, s = n +:+ post.
Proof.
  revert s. induction n as [|c n IH]; intros s.
  - split; [exists s; reflexivity | intros _; apply prefix_nil].
  - destruct s as [|d s].
    + split; [discriminate | intros [post H]; discriminate H].
    + rewrite prefix_cons, IH. split.
      * intros [-> [post ->]]. exists post. reflexivity.
      * intros [post H]. injection H as -> ->. eauto.
Qed.

Lemma contains_nil (n : string) : Str.contains n "" = String.prefix n "".
Proof. unfold Str.contains. apply orb_false_r. Qed.

Lemma contains_cons (n : string) (c : ascii) (s : string) :
  Str.contains n (String c s) = String.prefix n (String c s) || Str.contains n s.
Proof. reflexivity. Qed.

Lemma contains_spec (n s : string) :
  Str.contains n s = true <-> exists pre post, s = pre +:+ n +:+ post.
Proof.
  induction s as [|c s IH].
  - rewrite contains_nil, prefix_spec. split.
    + intros [post H]. exists "", post. exact H.
    + intros [pre [post H]]. destruct pre; [exists post; exact H | discriminate H].
  - rewrite contains_cons, orb_true_iff, IH, prefix_spec. split.
    + intros [[post H]|[pre [post H]]].
      * exists "", post. exact H.
      * exists (String c pre), post. simpl. rewrite H. reflexivity.
    + intros [pre [post H]]. destruct pre as [|d pre].
      * left. exists post. exact H.
      * right. exists pre, post. simpl in H. injection H as _ H. exact H.
Qed.

(** The three ways [lower] reads the start of a text. *)
Lemma lower_cases (c : ascii) (t : string) :
  (exists t', c = "196"%char /\ t = String "176" t'
              /\ Str.lower (String c t) = String "i" (String "204" (String "135" (Str.lower t'))))
  \/ (exists t', c = "226"%char /\ t = String "132" (String "170" t')
                 /\ Str.lower (String c t) = String "k" (Str.lower t'))
  \/ (Str.lower (String c t) = String (Str.lower_char c) (Str.lower t)
      /\ (forall t', String c t <> String "196" (String "176" t'))
      /\ (forall t', String c t <> String "226" (String "132" (String "170" t')))).
Proof.
  destruct t as [|c2 t2].
  { right. right. split; [reflexivity|]. split; intros t' H; discriminate H. }
  cbn [Str.lower].
  destruct (Ascii.eqb_spec c "196") as [->|Hc1]; cbn [andb].
  - destruct (Ascii.eqb_spec c2 "176") as [->|Hc2].
    + left. exists t2. auto.
    + right. right. destruct t2 as [|c3 t3].
      * split; [reflexivity|]. split; intros t' H; congruence.
      * change (Ascii.eqb "196" "226") with false. cbn [andb].
        split; [reflexivity|]. split; intros t' H; congruence.
  - destruct t2 as [|c3 t3].
    + right. right. split; [reflexivity|]. split; intros t' H; congruence.
    + destruct (Ascii.eqb_spec c "226") as [->|Hc]; cbn [andb].
      * destruct (Ascii.eqb_spec c2 "132") as [->|Hc2]; cbn [andb].
        -- destruct (Ascii.eqb_spec c3 "170") as [->|Hc3].
           ++ right. left. exists t3. auto.
           ++ right. right. split; [reflexivity|]. split; intros t' H; congruence.
        -- right. right. split; [reflexivity|]. split; intros t' H; congruence.
      * right. right. split; [reflexivity|]. split; intros t' H; congruence.
Qed.

Lemma lower_word_cons (d : ascii) (n : string) :
  lower_word (String d n) = true ->
  (nat_of_ascii d < 128)%nat /\ Str.is_upper d = false /\ lower_word n = true.
Proof.
  unfold lower_word. cbn [list_ascii_of_string forallb]. rewrite !andb_true_iff.
  intros [[H1 H2] H3]. apply Nat.ltb_lt in H1. apply negb_true_iff in H2. auto.
Qed.

(** Lower-casing one byte, as a relation. *)
Lemma lower_char_same_letter (c d : ascii) :
  (nat_of_ascii d < 128)%nat -> Str.is_upper d = false ->
  (Str.lower_char c = d <-> same_letter c d).
Proof.
  intros Hd Hu. unfold Str.lower_char, same_letter.
  destruct (Str.is_upper c) eqn:Ec.
  - unfold Str.is_upper in Ec. cbv zeta in Ec. apply andb_true_iff in Ec.
    destruct Ec as [E1 E2]. apply Nat.leb_le in E1, E2. split.
    + intros <-. right. rewrite nat_ascii_embedding by lia. lia.
    + intros [->|[H1 [H2 H3]]].
      * unfold Str.is_upper in Hu. cbv zeta in Hu.
        apply andb_false_iff in Hu. destruct Hu as [Hu|Hu]; apply Nat.leb_gt in Hu; lia.
      * rewrite <- H3. apply ascii_nat_embedding.
  - split; [auto|]. intros [->|[H1 [H2 H3]]]; [reflexivity|].
    unfold Str.is_upper in Ec. cbv zeta in Ec.
    apply andb_false_iff in Ec. destruct Ec as [Ec|Ec]; apply Nat.leb_gt in Ec; lia.
Qed.

Lemma same_letter_ascii (c d : ascii) :
  same_letter c d -> (nat_of_ascii d < 128)%nat -> (nat_of_ascii c < 128)%nat.
Proof. intros [->|[H1 [H2 H3]]] Hd; lia. Qed.

(** Reading a lower-case word at the start of the lower-cased text. *)
Lemma prefix_lower_ci (n : string) :
  lower_word n = true ->
  forall s, String.prefix n (Str.lower s) = true <-> ci_prefix n s.
Proof.
  induction n as [|d n IH]; intros Hn s.
  { split; [intros _; apply ci_done | intros _; apply prefix_nil]. }
  destruct (lower_word_cons _ _ Hn) as [Hd [Hu Hn']]. specialize (IH Hn').
  destruct s as [|c t].
  { split; [discriminate | intros H; inversion H]. }
  destruct (lower_cases c t) as [[t' [-> [-> E]]]|[[t' [-> [-> E]]]|[E [N1 N2]]]]; rewrite E.
  - rewrite prefix_cons. split.
    + intros [-> H]. destruct n as [|d' n'']; [apply ci_dotted|].
      apply prefix_cons in H. destruct H as [-> _].
      apply lower_word_cons in Hn'. destruct Hn' as [Hbad _]. vm_compute in Hbad. lia.
    + intros H. inversion H as [| ? ? ? ? Hs _ | |]; subst.
      * exfalso. apply (same_letter_ascii _ _ Hs) in Hd. vm_compute in Hd. lia.
      * split; [reflexivity | apply prefix_nil].
  - rewrite prefix_cons, IH. split.
    + intros [-> H]. apply ci_kelvin. exact H.
    + intros H. inversion H as [| ? ? ? ? Hs _ | |]; subst.
      * exfalso. apply (same_letter_ascii _ _ Hs) in Hd. vm_compute in Hd. lia.
      * auto.
  - rewrite prefix_cons, IH. split.
    + intros [Hs H]. apply ci_letter; [|exact H].
      apply (lower_char_same_letter c d Hd Hu). auto.
    + intros H. inversion H as [| ? ? ? ? Hs Hp | |]; subst.
      * split; [|exact Hp]. symmetry. apply (lower_char_same_letter c d Hd Hu), Hs.
      * exfalso. exact (N2 _ eq_refl).
      * exfalso. exact (N1 _ eq_refl).
Qed.

Lemma ci_in_nil (n : string) : n <> "" -> ~ ci_in n "".
Proof.
  intros Hn [pre [post [H Hp]]]. destruct pre; [|discriminate H].
  change ("" = post) in H. subst post. inversion Hp. congruence.
Qed.

Lemma ci_in_cons (n : string) (c : ascii) (t : string) :
  ci_in n (String c t) <-> ci_prefix n (String c t) \/ ci_in n t.
Proof.
  split.
  - intros [pre [post [H Hp]]]. destruct pre as [|x pre].
    + left. change (String c t = post) in H. rewrite H. exact Hp.
    + right. rewrite append_cons in H. injection H as _ ->. exists pre, post. auto.
  - intros [H|[pre [post [-> Hp]]]].
    + exists "", (String c t). auto.
    + exists (String c pre), post. auto.
Qed.

(** A lower-case ASCII word does not start at a byte outside ASCII, the
    first bytes of the two special characters apart. *)
Lemma ci_prefix_other (n : string) (x : ascii) (r : string) :
  lower_word n = true -> n <> "" -> (128 <= nat_of_ascii x)%nat ->
  x <> "226"%char -> x <> "196"%char -> ~ ci_prefix n (String x r).
Proof.
  intros Hn Hne Hx H1 H2 H. inversion H as [| ? ? ? ? Hs _ | |]; subst; try congruence.
  apply lower_word_cons in Hn. destruct Hn as [Hd _].
  apply (same_letter_ascii _ _ Hs) in Hd. lia.
Qed.

Lemma prefix_other (n : string) (x : ascii) (r : string) :
  lower_word n = true -> n <> "" -> (128 <= nat_of_ascii x)%nat ->
  String.prefix n (String x r) = false.
Proof.
  intros Hn Hne Hx. destruct n as [|d n]; [congruence|].
  apply lower_word_cons in Hn. destruct Hn as [Hd _].
  simpl. destruct (Ascii.ascii_dec d x) as [->|]; [lia | reflexivity].
Qed.

Lemma contains_lower_ci (n : string) :
  lower_word n = true -> n <> "" ->
  forall s, Str.contains n (Str.lower s) = true <-> ci_in n s.
Proof.
  intros Hn Hne.
  assert (H : forall m s, (String.length s < m)%nat ->
                          (Str.contains n (Str.lower s) = true <-> ci_in n s)).
  { induction m as [|m IH]; intros s Hm; [lia|].
    destruct s as [|c t].
    { cbn [Str.lower]. rewrite contains_nil. destruct n; [congruence|].
      split; [discriminate | intros H; exfalso; exact (ci_in_nil _ Hne H)]. }
    pose proof (prefix_lower_ci n Hn (String c t)) as Hp.
    cbn [String.length] in Hm.
    destruct (lower_cases c t) as [[t' [-> [-> E]]]|[[t' [-> [-> E]]]|[E _]]];
      rewrite E in Hp |- *.
    - rewrite contains_cons, orb_true_iff, Hp.
      rewrite contains_cons, (prefix_other n "204") by (assumption || (vm_compute; lia)).
      rewrite contains_cons, (prefix_other n "135") by (assumption || (vm_compute; lia)).
      cbn [orb]. rewrite (IH t') by (cbn [String.length] in Hm; lia).
      rewrite (ci_in_cons n "196"), (ci_in_cons n "176").
      pose proof (ci_prefix_other n "176" t' Hn Hne) as Hno.
      split; [tauto|]. intros [H|[H|H]]; [tauto | | tauto].
      exfalso. apply Hno; [vm_compute; lia | discriminate | discriminate | exact H].
    - rewrite contains_cons, orb_true_iff, Hp.
      rewrite (IH t') by (cbn [String.length] in Hm; lia).
      rewrite (ci_in_cons n "226"), (ci_in_cons n "132"), (ci_in_cons n "170").
      pose proof (ci_prefix_other n "132" (String "170" t') Hn Hne) as Hno1.
      pose proof (ci_prefix_other n "170" t' Hn Hne) as Hno2.
      split; [tauto|]. intros [H|[H|[H|H]]]; [tauto | | | tauto]; exfalso.
      + apply Hno1; [vm_compute; lia | discriminate | discriminate | exact H].
      + apply Hno2; [vm_compute; lia | discriminate | discriminate | exact H].
    - rewrite contains_cons, orb_true_iff, Hp, (IH t) by lia.
      rewrite ci_in_cons. tauto. }
  intros s. apply (H (S (String.length s))). lia.
Qed.






(** ** Local fallback generator *)

Lemma random_choice_ok {A : Type} (R : random_lib) (seq : list A) (g : rng R) :
  seq <> [] ->
  exists x, nth_error seq (randbelow R (length seq) g).1 = Some x
            /\ random_choice R seq g = Ok (x, (randbelow R (length seq) g).2).
Proof.
  intros Hne. unfold random_choice.
  assert (Hlt : ((randbelow R (length seq) g).1 < length seq)%nat).
  { apply randbelow_lt. destruct seq; [congruence | simpl; lia]. }
  destruct (randbelow R (length seq) g) as [i g'] eqn:E. simpl in Hlt |- *.
  destruct (nth_error seq i) as [x|] eqn:Ex.
  - exists x. split; [reflexivity|]. destruct seq; [congruence|].
    unfold index. rewrite Ex. reflexivity.
  - apply nth_error_None in Ex. lia.
Qed.

Lemma random_choice_in {A : Type} (R : random_lib) (seq : list A) (g : rng R) :
  seq <> [] -> exists x g', In x seq /\ random_choice R seq g = Ok (x, g').
Proof.
  intros Hne. destruct (random_choice_ok R seq g Hne) as [x [Hx H]].
  exists x, (randbelow R (length seq) g).2. split; [|exact H].
  eapply nth_error_In, Hx.
Qed.

Lemma reference_templates_nonempty (b : bucket) (display sign transit feature : string) :
  reference_openings b display sign transit feature <> []
  /\ reference_advices b display sign transit feature <> []
  /\ reference_whys b display sign transit feature <> [].
Proof. destruct b; simpl; repeat split; discriminate. Qed.

Lemma pick_chart_feature_total (R : random_lib) (natal : option string) (sign : string)
  (g : rng R) :
  exists feature g', pick_chart_feature R natal sign g = Ok (feature, g').
Proof.
  unfold pick_chart_feature. destruct (chart_features natal) as [|f fs] eqn:E.
  - eauto.
  - destruct (random_choice_in R (f :: fs) g) as [x [g' [_ H]]]; [discriminate|]. eauto.
Qed.

(** The test of the tone for a word, on a tone that has a [lower] or is
    never asked for it. *)
Lemma tone_has_ci (needle : string) (tone : pyval) :
  lower_word needle = true -> needle <> "" ->
  (forall type_name text, tone <> POther type_name text true) ->
  exists found, tone_has needle tone = Ok found /\ (found = true <-> tone_ci needle tone).
Proof.
  intros Hl Hne Hstr. unfold tone_has, tone_ci. destruct tone as [|t|type_name text [|]].
  - exists false. split; [reflexivity|]. split; [discriminate|]. intros [t [H _]]. discriminate H.
  - eexists. split; [reflexivity|].
    rewrite andb_true_iff, (contains_lower_ci _ Hl Hne). split.
    + intros [_ H]. eauto.
    + intros [t' [[= <-] H]]. split; [|exact H].
      destruct t; [|reflexivity]. exfalso. exact (ci_in_nil _ Hne H).
  - exfalso. exact (Hstr _ _ eq_refl).
  - exists false. split; [reflexivity|]. split; [discriminate|]. intros [t [H _]]. discriminate H.
Qed.

(** The bucket of a tone, and its sentences. *)
Lemma tone_templates_bucket (tone : pyval) :
  (forall type_name text, tone <> POther type_name text true) ->
  exists b,
    match b with
    | Serious => tone_ci "serious" tone
    | Inspirational => ~ tone_ci "serious" tone /\ tone_ci "inspir" tone
    | Playful => ~ tone_ci "serious" tone /\ ~ tone_ci "inspir" tone
    end
    /\ forall display sign transit feature,
         tone_templates tone display sign transit feature
         = Ok (reference_templates b display sign transit feature).
Proof.
  intros Hstr. unfold tone_templates.
  destruct (tone_has_ci "serious" tone eq_refl ltac:(discriminate) Hstr) as [s [-> Hs]].
  destruct (tone_has_ci "inspir" tone eq_refl ltac:(discriminate) Hstr) as [i [-> Hi]].
  cbn [mbind result_bind].
  destruct s.
  - exists Serious. split; [apply Hs; reflexivity | reflexivity].
  - assert (Hns : ~ tone_ci "serious" tone) by (intros H; apply Hs in H; discriminate H).
    destruct i.
    + exists Inspirational. split; [|reflexivity]. split; [exact Hns | apply Hi; reflexivity].
    + exists Playful. split; [|reflexivity].
      split; [exact Hns | intros H; apply Hi in H; discriminate H].
Qed.

Lemma tone_templates_raise (type_name text display sign transit feature : string) :
  tone_templates (POther type_name text true) display sign transit feature
  = Raise (Error ("'" +:+ type_name +:+ "' object has no attribute 'lower'")).
Proof. reflexivity. Qed.

Lemma natal_hint_note (natal : option string) : natal_hint natal = summary_note natal.
Proof. destruct natal as [[|c s]|]; reflexivity. Qed.

(** The generator once seeded: the paragraph is built from one opening, one
    advice and one reason of the sentences the tone selects. *)
Lemma compose_shape (R : random_lib) (display sign : string) (tone : pyval)
  (natal : option string) (g : rng R) (b : bucket) :
  (forall transit feature,
     tone_templates tone display sign transit feature
     = Ok (reference_templates b display sign transit feature)) ->
  exists transit feature opening advice why,
    In transit transit_keywords
    /\ In opening (reference_openings b display sign transit feature)
    /\ In advice (reference_advices b display sign transit feature)
    /\ In why (reference_whys b display sign transit feature)
    /\ compose R display sign tone natal g
       = Ok (opening +:+ " " +:+ advice +:+ summary_note natal +:+ " " +:+ why).
Proof.
  intros Ht. unfold compose.
  destruct (random_choice_in R transit_keywords g) as [transit [g1 [Htr E1]]]; [discriminate|].
  destruct (pick_chart_feature_total R natal sign g1) as [feature [g2 E2]].
  destruct (reference_templates_nonempty b display sign transit feature) as [Ho [Ha Hw]].
  destruct (random_choice_in R _ g2 Ho) as [opening [g3 [Hio E3]]].
  destruct (random_choice_in R _ g3 Ha) as [advice [g4 [Hia E4]]].
  destruct (random_choice_in R _ g4 Hw) as [why [g5 [Hiw E5]]].
  exists transit, feature, opening, advice, why.
  rewrite E1. cbn [mbind result_bind]. rewrite E2. cbn [mbind result_bind].
  rewrite Ht. cbn [mbind result_bind reference_templates openings advices whys].
  rewrite E3. cbn [mbind result_bind]. rewrite E4. cbn [mbind result_bind].
  rewrite E5. cbn [mbind result_bind]. rewrite natal_hint_note. auto.
Qed.

Lemma compose_raise (R : random_lib) (display sign type_name text : string)
  (natal : option string) (g : rng R) :
  compose R display sign (POther type_name text true) natal g
  = Raise (Error ("'" +:+ type_name +:+ "' object has no attribute 'lower'")).
Proof.
  unfold compose.
  destruct (random_choice_in R transit_keywords g) as [transit [g1 [_ ->]]]; [discriminate|].
  cbn [mbind result_bind].
  destruct (pick_chart_feature_total R natal sign g1) as [feature [g2 ->]].
  reflexivity.
Qed.

(** The greeting of a name that can be greeted. *)
Lemma display_name_greeting (R : random_lib) (name : pyval) :
  (forall type_name text, name <> POther type_name text true) ->
  display_name name = Ok (greeting name).
Proof.
  intros H. destruct name as [|[|c n]|type_name text [|]]; try reflexivity.
  exfalso. exact (H _ _ eq_refl).
Qed.

(** What a returned paragraph went through. *)
Lemma local_fallback_ok (R : random_lib) (name : pyval) (sign : string) (tone : pyval)
  (natal : option string) (now text : string) :
  local_fallback R name sign tone natal now = Ok text ->
  (forall type_name t, name <> POther type_name t true)
  /\ exists seed, sha256_int R (seed_source name sign tone natal now) = Ok seed
                  /\ compose R (greeting name) sign tone natal (random_seed R seed) = Ok text.
Proof.
  unfold local_fallback. intros H.
  assert (Hname : forall type_name t, name <> POther type_name t true).
  { intros type_name t ->. discriminate H. }
  split; [exact Hname|]. rewrite (display_name_greeting R name Hname) in H.
  cbn [mbind result_bind] in H.
  destruct (sha256_int R _) as [seed|e]; [|discriminate H]. eauto.
Qed.

(** C1, amended. For every tone that is absent, a text, or a falsy value of
    another type, the generator takes the sentences of exactly one bucket,
    chosen in this fixed order: the serious ones when the tone is a text
    that contains "serious" up to case, otherwise the inspirational ones
    when it contains "inspir" up to case, otherwise the playful ones; the
    three lists it draws from are, word for word, those of that bucket, and
    whenever the generator returns a paragraph its three sentences are among
    them. "Serious Thoughts" selects the serious sentences and an absent
    tone the playful ones. A truthy tone of another type (a number, a list)
    selects nothing: the test raises [AttributeError] and the generator
    returns no paragraph. *)
Theorem tone_bucket_selection (tone : pyval) :
  match tone with
  | POther type_name _ true =>
      (forall display sign transit feature,
         tone_templates tone display sign transit feature
         = Raise (Error ("'" +:+ type_name +:+ "' object has no attribute 'lower'")))
      /\ forall (R : random_lib) name sign natal now text,
           local_fallback R name sign tone natal now <> Ok text
  | _ =>
      exists b,
        match b with
        | Serious => tone_ci "serious" tone
        | Inspirational => ~ tone_ci "serious" tone /\ tone_ci "inspir" tone
        | Playful => ~ tone_ci "serious" tone /\ ~ tone_ci "inspir" tone
        end
        /\ (forall display sign transit feature,
              tone_templates tone display sign transit feature
              = Ok (reference_templates b display sign transit feature))
        /\ forall (R : random_lib) name sign natal now text,
             local_fallback R name sign tone natal now = Ok text ->
             exists transit feature opening advice why,
               In transit transit_keywords
               /\ In opening (reference_openings b (greeting name) sign transit feature)
               /\ In advice (reference_advices b (greeting name) sign transit feature)
               /\ In why (reference_whys b (greeting name) sign transit feature)
               /\ text = opening +:+ " " +:+ advice +:+ summary_note natal +:+ " " +:+ why
  end
  /\ (forall display sign transit feature,
        tone_templates (PStr "Serious Thoughts") display sign transit feature
        = Ok (reference_templates Serious display sign transit feature))
  /\ (forall display sign transit feature,
        tone_templates PNone display sign transit feature
        = Ok (reference_templates Playful display sign transit feature)).
Proof.
  split; [|split; reflexivity].
  assert (Hgen : (forall type_name text, tone <> POther type_name text true) ->
    exists b,
      match b with
      | Serious => tone_ci "serious" tone
      | Inspirational => ~ tone_ci "serious" tone /\ tone_ci "inspir" tone
      | Playful => ~ tone_ci "serious" tone /\ ~ tone_ci "inspir" tone
      end
      /\ (forall display sign transit feature,
            tone_templates tone display sign transit feature
            = Ok (reference_templates b display sign transit feature))
      /\ forall (R : random_lib) name sign natal now text,
           local_fallback R name sign tone natal now = Ok text ->
           exists transit feature opening advice why,
             In transit transit_keywords
             /\ In opening (reference_openings b (greeting name) sign transit feature)
             /\ In advice (reference_advices b (greeting name) sign transit feature)
             /\ In why (reference_whys b (greeting name) sign transit feature)
             /\ text = opening +:+ " " +:+ advice +:+ summary_note natal +:+ " " +:+ why).
  { intros Hstr. destruct (tone_templates_bucket tone Hstr) as [b [Hb Ht]].
    exists b. split; [exact Hb|]. split; [exact Ht|].
    intros R name sign natal now text H.
    destruct (local_fallback_ok R name sign tone natal now text H) as [_ [seed [_ Hc]]].
    destruct (compose_shape R (greeting name) sign tone natal (random_seed R seed) b
                (fun transit feature => Ht _ _ _ _))
      as [transit [feature [opening [advice [why [H1 [H2 [H3 [H4 H5]]]]]]]]].
    exists transit, feature, opening, advice, why. rewrite Hc in H5. injection H5 as ->.
    auto. }
  destruct tone as [|t|type_name tone_text [|]]; try (apply Hgen; intros ? ?; discriminate).
  split; [intros; reflexivity|].
  intros R name sign natal now text H.
  destruct (local_fallback_ok R name sign _ natal now text H) as [_ [seed [_ Hc]]].
  rewrite compose_raise in Hc. discriminate Hc.
Qed.

(** C1, counterexample: a JSON body whose tone is the number 123. The test
    of the tone raises, no bucket is selected, and without a credential for
    the hosted model the request ends in that unhandled error. *)
Lemma tone_of_another_type_raises :
  tone_templates (POther "int" "123" true) "Alex, " "gemini" "Venus trine Mars"
    "Ascendant in gemini"
  = Raise (Error "'int' object has no attribute 'lower'")
  /\ (post_horoscope (Sample.world_with Sample.paris None) Sample.request_numeric_tone ∅).1
     = Raise (Error "'int' object has no attribute 'lower'").
Proof. split; [reflexivity | vm_compute; reflexivity]. Qed.

(** The serious sentences, on the sample generator. *)
Example serious_paragraph :
  local_fallback Sample.lcg (PStr "Alex") "gemini" (PStr "Serious Thoughts") None "1800000000.0"
  = Ok "Alex, gemini focus favors consistency and discipline, with Saturn sextile Uranus influencing your Ascendant in gemini. Choose one small task and finish it — progress builds momentum, especially for your Ascendant in gemini. This keeps stress low and creates clear results to build on, especially under Saturn sextile Uranus and your Ascendant in gemini.".
Proof. vm_compute. reflexivity. Qed.

(** ** The chart feature *)

Lemma split_nonempty (sep : ascii) (s : string) : Str.split sep s <> [].
Proof.
  induction s as [|c s IH]; simpl; [discriminate|].
  destruct (Ascii.eqb c sep); [discriminate|].
  destruct (Str.split sep s); [congruence | discriminate].
Qed.

(** Joining the pieces with the separator gives the text back. *)
Lemma join_split (sep : ascii) (s : string) :
  Str.join (String sep "") (Str.split sep s) = s.
Proof.
  induction s as [|c s IH]; [reflexivity|]. simpl.
  pose proof (split_nonempty sep s) as Hne.
  destruct (Ascii.eqb_spec c sep) as [->|Hc].
  - destruct (Str.split sep s) as [|h r]; [congruence|].
    change (Str.join (String sep "") ("" :: h :: r))
      with (String sep (Str.join (String sep "") (h :: r))).
    rewrite IH. reflexivity.
  - destruct (Str.split sep s) as [|h r]; [congruence|].
    destruct r as [|h' r].
    + simpl in IH |- *. rewrite IH. reflexivity.
    + change (Str.join (String sep "") (String c h :: h' :: r))
        with (String c (h +:+ String sep "" +:+ Str.join (String sep "") (h' :: r))).
      f_equal. exact IH.
Qed.

(** No piece contains the separator. *)
Lemma split_free (sep : ascii) (s : string) :
  Forall (fun f => ~ In sep (list_ascii_of_string f)) (Str.split sep s).
Proof.
  induction s as [|c s IH]; simpl.
  - constructor; [simpl; tauto | constructor].
  - destruct (Ascii.eqb_spec c sep) as [->|Hc].
    + constructor; [simpl; tauto | exact IH].
    + destruct (Str.split sep s) as [|h r]; [repeat constructor; simpl; intuition|].
      inversion IH as [|? ? Hh Hr]; subst. constructor; [|exact Hr].
      simpl. intros [H|H]; [congruence | exact (Hh H)].
Qed.

Ltac in_whitespace := vm_compute; repeat (first [left; reflexivity | right]).

Lemma isspace_in (c : ascii) : Str.isspace c = true -> In (String c "") whitespace.
Proof.
  destruct c as [[] [] [] [] [] [] [] []]; intros H; vm_compute in H;
    first [discriminate H | in_whitespace].
Qed.

Lemma isspace2_in (c c2 : ascii) :
  Str.isspace2 c c2 = true -> In (String c (String c2 "")) whitespace.
Proof.
  unfold Str.isspace2. rewrite andb_true_iff, orb_true_iff.
  intros [H1 H2]. apply Ascii.eqb_eq in H1. subst c.
  destruct H2 as [H2|H2]; apply Ascii.eqb_eq in H2; subst c2; in_whitespace.
Qed.

Lemma isspace3_in (c c2 c3 : ascii) :
  Str.isspace3 c c2 c3 = true -> In (String c (String c2 (String c3 ""))) whitespace.
Proof.
  unfold Str.isspace3. cbv zeta. rewrite !orb_true_iff, !andb_true_iff.
  intros [[[[[H1 H2] H3]|[[H1 H2] H3]]|[[H1 H2] H3]]|[[H1 H2] H3]];
    apply Ascii.eqb_eq in H1; apply Ascii.eqb_eq in H2; subst c c2.
  - apply Ascii.eqb_eq in H3. subst c3. in_whitespace.
  - destruct c3 as [[] [] [] [] [] [] [] []]; vm_compute in H3;
      first [discriminate H3 | in_whitespace].
  - apply Ascii.eqb_eq in H3. subst c3. in_whitespace.
  - apply Ascii.eqb_eq in H3. subst c3. in_whitespace.
Qed.

(** How [lstrip] and [blank] read the start of a text. *)
Lemma space_cases (s : string) :
  s = ""
  \/ (exists w t, s = w +:+ t /\ In w whitespace /\ (String.length t < String.length s)%nat
                  /\ Str.lstrip s = Str.lstrip t /\ Str.blank s = Str.blank t)
  \/ (s <> "" /\ Str.lstrip s = s /\ Str.blank s = false).
Proof.
  destruct s as [|c t]; [left; reflexivity | right].
  destruct (Str.isspace c) eqn:E1.
  { left. exists (String c ""), t. split; [reflexivity|]. split; [apply isspace_in, E1|].
    split; [simpl; lia|]. cbn [Str.lstrip Str.blank]. rewrite E1. auto. }
  destruct t as [|c2 t2].
  { right. split; [discriminate|]. cbn [Str.lstrip Str.blank]. rewrite E1. auto. }
  destruct (Str.isspace2 c c2) eqn:E2.
  { left. exists (String c (String c2 "")), t2. split; [reflexivity|].
    split; [apply isspace2_in, E2|]. split; [simpl; lia|].
    cbn [Str.lstrip Str.blank]. rewrite E1, E2. auto. }
  destruct t2 as [|c3 t3].
  { right. split; [discriminate|]. cbn [Str.lstrip Str.blank]. rewrite E1, E2. auto. }
  destruct (Str.isspace3 c c2 c3) eqn:E3.
  { left. exists (String c (String c2 (String c3 ""))), t3. split; [reflexivity|].
    split; [apply isspace3_in, E3|]. split; [simpl; lia|].
    cbn [Str.lstrip Str.blank]. rewrite E1, E2, E3. auto. }
  right. split; [discriminate|]. cbn [Str.lstrip Str.blank]. rewrite E1, E2, E3. auto.
Qed.

Lemma blank_whitespace (w r : string) : In w whitespace -> Str.blank (w +:+ r) = Str.blank r.
Proof.
  intros H. vm_compute in H.
  repeat (destruct H as [<-|H]; [reflexivity|]). destruct H.
Qed.

(** [blank] recognises the texts made of white-space characters. *)
Lemma blank_spec (f : string) : Str.blank f = true <-> blank_text f.
Proof.
  split.
  - assert (H : forall m s, (String.length s < m)%nat -> Str.blank s = true -> blank_text s).
    { induction m as [|m IH]; intros s Hm Hb; [lia|].
      destruct (space_cases s) as [->|[[w [t [-> [Hw [Hlen [_ E]]]]]]|[_ [_ E]]]].
      - exists []. split; [constructor | reflexivity].
      - rewrite E in Hb. destruct (IH t ltac:(lia) Hb) as [ws [Hws ->]].
        exists (w :: ws). split; [constructor; assumption | reflexivity].
      - congruence. }
    apply (H (S (String.length f))). lia.
  - intros [ws [Hws ->]]. induction Hws as [|w ws Hw _ IH]; [reflexivity|].
    cbn [fold_right]. rewrite (blank_whitespace _ _ Hw). exact IH.
Qed.

Lemma lstrip_blank (s : string) :
  (Str.lstrip s = "" <-> Str.blank s = true) /\ Str.blank (Str.lstrip s) = Str.blank s.
Proof.
  assert (H : forall m s, (String.length s < m)%nat ->
                (Str.lstrip s = "" <-> Str.blank s = true)
                /\ Str.blank (Str.lstrip s) = Str.blank s).
  { induction m as [|m IH]; intros t Hm; [lia|].
    destruct (space_cases t) as [->|[[w [r [-> [Hw [Hlen [E1 E2]]]]]]|[Hne [E1 E2]]]].
    - split; [split; reflexivity | reflexivity].
    - rewrite E1, E2. apply IH. lia.
    - rewrite E1, E2. split; [|reflexivity]. split; [congruence | discriminate]. }
  apply (H (S (String.length s))). lia.
Qed.

Lemma strip_truthy (f : string) : Str.truthy (Str.strip f) = negb (whitespace_only f).
Proof.
  unfold Str.strip, whitespace_only. destruct (lstrip_blank f) as [He Hb].
  destruct (Str.lstrip f) as [|c t] eqn:El.
  - rewrite (proj1 He eq_refl). reflexivity.
  - rewrite <- Hb. cbn [Str.rstrip]. destruct (Str.blank (String c t)); reflexivity.
Qed.

Lemma chart_features_segments (natal : option string) : chart_features natal = segments natal.
Proof.
  unfold chart_features, segments.
  assert (Hf : forall l, List.filter (fun f => Str.truthy (Str.strip f)) l
                         = List.filter (fun f => negb (whitespace_only f)) l).
  { intros l. induction l as [|x l IH]; [reflexivity|]. simpl.
    rewrite strip_truthy, IH. reflexivity. }
  destruct natal as [[|c s]|]; simpl; try reflexivity. apply Hf.
Qed.

Lemma kept_filter (pieces : list string) :
  kept_clauses pieces (List.filter (fun f => negb (whitespace_only f)) pieces).
Proof.
  induction pieces as [|f pieces IH]; [constructor|]. cbn [List.filter].
  unfold whitespace_only at 1. destruct (Str.blank f) eqn:E; cbn [negb].
  - apply kept_drop; [apply blank_spec, E | exact IH].
  - apply kept_keep; [|exact IH]. intros H. apply blank_spec in H. congruence.
Qed.

(** One draw value per position: the draw values that give a clause are as
    many as its occurrences. *)
Lemma draws_giving_count (clauses : list string) (c : string) :
  draws_giving (fun i => nth i clauses "") (length clauses) c
  = count_occ string_dec clauses c.
Proof.
  unfold draws_giving. induction clauses as [|x l IH]; [reflexivity|].
  cbn [length seq]. rewrite <- seq_shift. cbn [List.filter count_occ].
  change (nth 0 (x :: l) "") with x.
  assert (Hmap : forall xs,
            length (List.filter (fun i => String.eqb (nth i (x :: l) "") c) (map S xs))
            = length (List.filter (fun i => String.eqb (nth i l "") c) xs)).
  { induction xs as [|i xs IHxs]; [reflexivity|]. cbn [map List.filter].
    change (nth (S i) (x :: l) "") with (nth i l "").
    destruct (String.eqb (nth i l "") c); cbn [length]; rewrite IHxs; reflexivity. }
  destruct (String.eqb_spec x c) as [->|Hne]; destruct (string_dec _ c) as [?|?];
    try congruence; cbn [length]; rewrite Hmap, IH; reflexivity.
Qed.

(** C2. With no summary the chart feature is exactly "Ascendant in {sign}".
    With a summary, cut it at its semicolons into pieces (joined by ";" they
    give the summary back, and none holds a ";") and drop the pieces made of
    white-space characters only, the empty piece included: what is left are
    the clauses. With no clause left (an empty summary included) the chart
    feature is again exactly "Ascendant in {sign}", and the generator is not
    advanced. Otherwise a single draw below the number of clauses picks the
    clause at the drawn position; each position is picked by exactly one of
    the values of the draw, which [random.choice] takes uniformly, so that a
    clause is given by as many draw values as it has occurrences. *)
Theorem chart_feature_choice (R : random_lib) (summary sign : string) (g : rng R) :
  pick_chart_feature R None sign g = Ok ("Ascendant in " +:+ sign, g)
  /\ exists pieces clauses,
       summary = Str.join ";" pieces
       /\ Forall semicolon_free pieces
       /\ kept_clauses pieces clauses
       /\ match clauses with
          | [] => pick_chart_feature R (Some summary) sign g = Ok ("Ascendant in " +:+ sign, g)
          | _ :: _ =>
              let draw := randbelow R (length clauses) g in
              (draw.1 < length clauses)%nat
              /\ pick_chart_feature R (Some summary) sign g = Ok (nth draw.1 clauses "", draw.2)
          end
       /\ (forall i, (i < length clauses)%nat ->
             pick_chart_feature (Sample.fixed_draw i) (Some summary) sign tt
             = Ok (nth i clauses "", tt))
       /\ forall c, draws_giving (fun i => nth i clauses "") (length clauses) c
                    = count_occ string_dec clauses c.
Proof.
  split; [reflexivity|].
  exists (Str.split ";" summary), (segments (Some summary)).
  split; [symmetry; apply join_split|]. split; [apply split_free|].
  split; [apply kept_filter|].
  assert (Hpick : forall (R' : random_lib) (g' : rng R'),
            match segments (Some summary) with
            | [] => pick_chart_feature R' (Some summary) sign g'
                    = Ok ("Ascendant in " +:+ sign, g')
            | _ :: _ =>
                let draw := randbelow R' (length (segments (Some summary))) g' in
                (draw.1 < length (segments (Some summary)))%nat
                /\ pick_chart_feature R' (Some summary) sign g'
                   = Ok (nth draw.1 (segments (Some summary)) "", draw.2)
            end).
  { intros R' g'. unfold pick_chart_feature. rewrite chart_features_segments.
    destruct (segments (Some summary)) as [|f fs] eqn:E; [reflexivity|].
    cbv zeta. split; [apply randbelow_lt; simpl; lia|].
    destruct (random_choice_ok R' (f :: fs) g') as [x [Hx H]]; [discriminate|].
    rewrite H. f_equal. f_equal. symmetry. apply nth_error_nth, Hx. }
  split; [apply Hpick|]. split; [|apply draws_giving_count].
  intros i Hi. specialize (Hpick (Sample.fixed_draw i) tt).
  destruct (segments (Some summary)) as [|f fs]; [simpl in Hi; lia|].
  cbv zeta in Hpick. destruct Hpick as [_ Hpick]. rewrite Hpick.
  cbn [Sample.fixed_draw randbelow fst snd]. rewrite Nat.mod_small by exact Hi. reflexivity.
Qed.

(** A summary with a blank piece and a piece of no-break spaces: two
    clauses, the second one with its leading space. *)
Example chart_features_blank_pieces :
  chart_features (Some ("Sun in leo; ;" +:+ Str.bytes [194; 160; 226; 128; 131] +:+ "; Moon in aries;"))
  = ["Sun in leo"; " Moon in aries"].
Proof. vm_compute. reflexivity. Qed.

(** ** When the fallback replaces the hosted model *)



(** ** Astrology computations *)

Lemma Qmod_360_range (x : Q) : (0 <= Num.Qmod x 360)%Q /\ (Num.Qmod x 360 < 360)%Q.
Proof.
  unfold Num.Qmod. pose proof (Qfloor_le (x / 360)) as Hlo.
  pose proof (Qlt_floor (x / 360)) as Hhi. rewrite inject_Z_plus in Hhi.
  change (inject_Z 1) with 1%Q in Hhi. unfold Qdiv in *.
  change (/ 360)%Q with (1 # 360)%Q in *.
  generalize dependent (inject_Z (Qfloor (x * (1 # 360)))). intros q Hlo Hhi.
  split; lra.
Qed.

Lemma degree_to_sign_name_total (deg : Q) :
  degree_to_sign_name deg = Ok (sign_of deg) /\ In (sign_of deg) signs.
Proof.
  unfold degree_to_sign_name, sign_of, Num.Qfloordiv.
  destruct (Qmod_360_range deg) as [Hlo Hhi].
  assert (H0 : (0 <= Num.Qmod deg 360 / 30)%Q).
  { unfold Qdiv. change (/ 30)%Q with (1 # 30)%Q. lra. }
  assert (H1 : (Num.Qmod deg 360 / 30 < inject_Z 12)%Q).
  { unfold Qdiv. change (/ 30)%Q with (1 # 30)%Q. change (inject_Z 12) with 12%Q. lra. }
  pose proof (Qfloor_bounds _ _ H0 H1) as Hf.
  set (i := Z.to_nat (Qfloor (Num.Qmod deg 360 / 30))).
  assert (Hi : (i < length signs)%nat) by (unfold i; change (length signs) with 12%nat; lia).
  split.
  - unfold index. destruct (nth_error signs i) as [s|] eqn:E.
    + rewrite (nth_error_nth _ _ _ E). reflexivity.
    + apply nth_error_None in E. lia.
  - apply nth_In, Hi.
Qed.

Lemma index_nth {A : Type} (xs : list A) (i : nat) (d : A) :
  (i < length xs)%nat -> index xs i = Ok (nth i xs d).
Proof.
  intros Hi. unfold index. destruct (nth_error xs i) as [x|] eqn:E.
  - rewrite (nth_error_nth _ _ _ E). reflexivity.
  - apply nth_error_None in E. lia.
Qed.

Lemma cusp_loop_seq (cusps : list Q) (n offset : nat) (start : Z) (acc : list house_cusp) :
  (offset + n <= length cusps)%nat ->
  cusp_loop cusps (seq offset n) start acc
  = Ok (acc ++ map (fun k => let deg := nth (offset + k) cusps 0%Q in
                             mkhouse (start + Z.of_nat k) (sign_of deg)
                               (Num.round1 (Num.Qmod deg 30)))
                 (seq 0 n))%list.
Proof.
  revert offset start acc. induction n as [|n IH]; intros offset start acc Hlen.
  - simpl. rewrite app_nil_r. reflexivity.
  - cbn [seq cusp_loop]. rewrite (index_nth cusps offset 0%Q) by lia.
    cbn [mbind result_bind].
    rewrite (proj1 (degree_to_sign_name_total _)). cbn [mbind result_bind].
    rewrite IH by lia. f_equal. rewrite <- app_assoc. f_equal.
    cbn [map app]. rewrite Nat.add_0_r, Z.add_0_r. f_equal.
    rewrite <- seq_shift, map_map. apply map_ext. intros k.
    replace (S offset + k)%nat with (offset + S k)%nat by lia.
    replace (start + 1 + Z.of_nat k) with (start + Z.of_nat (S k)) by lia.
    reflexivity.
Qed.

(** With at least twelve cusps the loop fills the twelve houses. *)
Lemma cusp_loop_full (cusps : list Q) :
  (12 <= length cusps)%nat ->
  cusp_loop cusps (cusp_indices (length cusps)) 1 []
  = Ok (map (house_of cusps (if Nat.leb 13 (length cusps) then 1 else 0)) (seq 0 12)).
Proof.
  intros Hlen. unfold cusp_indices.
  destruct (Nat.leb_spec 13 (length cusps)) as [H13|H13].
  - rewrite cusp_loop_seq by lia. reflexivity.
  - replace (Nat.min 12 (length cusps)) with 12%nat by lia.
    rewrite cusp_loop_seq by lia. reflexivity.
Qed.

(** C7, amended. Given an ephemeris that yields at least twelve cusps
    whenever it answers (twelve, or thirteen with the first one unused),
    [compute_house_cusps] either returns the twelve houses numbered 1 to 12
    in ascending order, house 1 being read at position 0 of a 12-element
    array and at position 1 of a longer one, or raises: never a shorter
    list. It raises exactly when the birth instant cannot be turned into a
    Julian day or the ephemeris fails, and it is the handler's guard around
    the call that then uses the empty sequence. *)
Theorem house_cusps_all_or_nothing (W : world) (bday : date) (birth_time : string)
  (lat lon : Q) (tz_name : string) :
  ephemeris_cusps_ok (astro W) ->
  let computed := compute_house_cusps (astro W) bday birth_time lat lon tz_name in
  let hs := houses (chart_of W bday birth_time (Some (lat, lon)) tz_name) in
  match jd ← birth_julday (astro W) bday birth_time tz_name ; swe_houses (astro W) jd lat lon with
  | Ok (cusps, _) =>
      computed = Ok hs
      /\ hs = map (house_of cusps (if Nat.leb 13 (length cusps) then 1 else 0)) (seq 0 12)
      /\ map house hs = [1; 2; 3; 4; 5; 6; 7; 8; 9; 10; 11; 12]
  | Raise e => computed = Raise e /\ hs = []
  end.
Proof.
  intros Hok computed hs. unfold hs, chart_of. cbn [houses]. fold computed.
  unfold computed, compute_house_cusps.
  destruct (birth_julday (astro W) bday birth_time tz_name) as [jd|e]; cbn [mbind result_bind];
    [|split; reflexivity].
  destruct (swe_houses (astro W) jd lat lon) as [[cusps ascmc]|e] eqn:E;
    cbn [mbind result_bind]; [|split; reflexivity].
  rewrite (cusp_loop_full cusps (Hok _ _ _ _ _ E)). cbn [try_except].
  split; [|split]; reflexivity.
Qed.

Lemma planet_loop_entries (L : astro_lib) (jd : Q) (bodies : list (string * Z))
  (acc : list string) :
  planet_loop L jd bodies acc = (acc ++ omap (planet_entry L jd) bodies)%list.
Proof.
  revert acc. induction bodies as [|[name pconst] rest IH]; intros acc.
  - simpl. rewrite app_nil_r. reflexivity.
  - cbn [planet_loop omap list_omap]. rewrite IH. unfold planet_entry at 2. cbn [fst snd].
    destruct (swe_calc_ut L jd pconst) as [lonp|e]; cbn [mbind result_bind try_except].
    + rewrite (proj1 (degree_to_sign_name_total lonp)). cbn [mbind result_bind try_except].
      rewrite <- app_assoc. reflexivity.
    + reflexivity.
Qed.

Lemma ascendant_parts (L : astro_lib) (jd lat lon : Q) :
  match (ascendant L jd lat lon).1 with
  | Some deg =>
      ["Ascendant: " +:+ (ascendant L jd lat lon).2 +:+ " (" +:+ Num.format_1f deg +:+ "°)"]
  | None => []
  end = ascendant_clause L jd lat lon.
Proof.
  unfold ascendant, ascendant_clause.
  destruct (swe_houses L jd lat lon) as [[cusps ascmc]|e]; cbn [mbind result_bind try_except];
    [|reflexivity].
  destruct ascmc as [|asc_deg rest]; [reflexivity|].
  unfold index. cbn [nth_error mbind result_bind].
  rewrite (proj1 (degree_to_sign_name_total asc_deg)). reflexivity.
Qed.

(** C8, amended. [compute_natal_summary] raises only when the birth instant
    cannot be turned into a Julian day (birth time not parsed, time zone or
    Julian day failing), and the handler's guard then takes the summary as
    absent. Otherwise it returns the "; "-joined list of at most two clauses:
    the ascendant clause "Ascendant: sign (deg°)", omitted when the ascendant
    fails, and one clause "Planets: " followed by the ", "-joined entries
    "Name in sign (deg°)" of the first six bodies that could be computed, in
    the order Sun, Moon, Mercury, Venus, Mars, Jupiter, Saturn, Uranus,
    Neptune, Pluto, omitted when none could; it is the empty text when both
    are omitted. *)
Theorem natal_summary_clauses (W : world) (bday : date) (birth_time : string)
  (lat lon : Q) (tz_name : string) :
  let computed := compute_natal_summary (astro W) bday birth_time lat lon tz_name in
  let summary := natal_summary (chart_of W bday birth_time (Some (lat, lon)) tz_name) in
  match birth_julday (astro W) bday birth_time tz_name with
  | Ok jd =>
      let clauses := (ascendant_clause (astro W) jd lat lon ++ planets_clause (astro W) jd)%list in
      computed = Ok (Str.join "; " clauses)
      /\ summary = Some (Str.join "; " clauses)
      /\ (length clauses <= 2)%nat
      /\ match clauses with [] => computed = Ok "" | _ => True end
  | Raise e => computed = Raise e /\ summary = None
  end.
Proof.
  intros computed summary. unfold summary, chart_of. cbn [natal_summary]. fold computed.
  unfold computed, compute_natal_summary.
  destruct (birth_julday (astro W) bday birth_time tz_name) as [jd|e];
    cbn [mbind result_bind try_except]; [|split; reflexivity].
  pose proof (ascendant_parts (astro W) jd lat lon) as Ha.
  destruct (ascendant (astro W) jd lat lon) as [asc_deg asc_sign]. cbn [fst snd] in Ha.
  rewrite planet_loop_entries. cbn [app]. unfold planets_clause. rewrite Ha.
  destruct (omap (planet_entry (astro W) jd) planets) as [|entry entries].
  - rewrite app_nil_r. cbn [mbind result_bind try_except].
    split; [reflexivity|]. split; [reflexivity|]. split.
    + unfold ascendant_clause.
      destruct (swe_houses (astro W) jd lat lon) as [[? [|? ?]]|?]; simpl; lia.
    + destruct (ascendant_clause (astro W) jd lat lon); [reflexivity | exact I].
  - cbn [mbind result_bind try_except].
    split; [reflexivity|]. split; [reflexivity|]. split.
    + unfold ascendant_clause.
      destruct (swe_houses (astro W) jd lat lon) as [[? [|? ?]]|?]; simpl; lia.
    + destruct (ascendant_clause (astro W) jd lat lon); exact I.
Qed.

Lemma house_cusps_all_or_nothing_witness :
  ephemeris_cusps_ok Sample.lib
  /\ map house (houses (chart_of (Sample.world_with Sample.paris None) (mkdate 1990 6 15)
                          "14:30" (Some (4885 # 100, 235 # 100)) "Europe/Paris"))
     = [1; 2; 3; 4; 5; 6; 7; 8; 9; 10; 11; 12].
Proof.
  assert (Hok : ephemeris_cusps_ok Sample.lib).
  { intros jd lat lon cusps ascmc [= <- _]. simpl. lia. }
  split; [exact Hok|].
  pose proof (house_cusps_all_or_nothing (Sample.world_with Sample.paris None)
                (mkdate 1990 6 15) "14:30" (4885 # 100) (235 # 100) "Europe/Paris" Hok) as H.
  cbv zeta in H.
  change (birth_julday (astro (Sample.world_with Sample.paris None)) (mkdate 1990 6 15)
            "14:30" "Europe/Paris")
    with (Ok (inject_Z (toordinal 1990 6 15) + (17214245 # 10)
              + (inject_Z 14 + inject_Z 30 / 60 + inject_Z 0 / 3600
                 + inject_Z 0 / 3600000000) / 24)%Q : result Q) in H.
  exact (proj2 (proj2 H)).
Defined.

(** C7, counterexample: with the birth time "noon" the function raises
    instead of returning the empty sequence; the empty sequence is what the
    handler's guard makes of it. *)
Lemma house_cusps_raise_on_bad_time :
  let W := Sample.world_with Sample.paris None in
  compute_house_cusps (astro W) (mkdate 1990 6 15) "noon" (4885 # 100) (235 # 100) "UTC"
  = Raise (Error "Invalid isoformat string")
  /\ compute_house_cusps (astro W) (mkdate 1990 6 15) "noon" (4885 # 100) (235 # 100) "UTC"
     <> Ok []
  /\ houses (chart_of W (mkdate 1990 6 15) "noon" (Some (4885 # 100, 235 # 100)) "UTC") = [].
Proof. split; [reflexivity|]. split; [discriminate | reflexivity]. Qed.

(** Without the ephemeris' guarantee the loop follows the array: three cusps
    give three houses. *)
Example three_cusps_three_houses :
  map house (try_except (cusp_loop [10; 40; 70]%Q (cusp_indices 3) 1 []) []) = [1; 2; 3].
Proof. reflexivity. Qed.

(** C8, counterexample: with the ascendant and nine bodies computed, the
    summary has two pieces between semicolons, the second one holding six
    bodies separated by commas; it is not the list of seven clauses joined by
    semicolons. *)
Lemma natal_summary_not_clause_per_body :
  exists jd summary,
    birth_julday Sample.lib (mkdate 1990 6 15) "14:30" "Europe/Paris" = Ok jd
    /\ compute_natal_summary Sample.lib (mkdate 1990 6 15) "14:30" (4885 # 100) (235 # 100)
         "Europe/Paris" = Ok summary
    /\ summary = "Ascendant: leo (123.4°); Planets: Sun in aries (12.3°), Moon in taurus (49.3°), Venus in leo (123.3°), Mars in virgo (160.3°), Jupiter in libra (197.3°), Saturn in scorpio (234.3°)"
    /\ length (Str.split ";" summary) = 2%nat
    /\ length (Str.split ";" (clause_per_body_summary Sample.lib jd (4885 # 100) (235 # 100)))
       = 7%nat
    /\ summary <> clause_per_body_summary Sample.lib jd (4885 # 100) (235 # 100).
Proof.
  eexists. eexists. split; [vm_compute; reflexivity|].
  split; [vm_compute; reflexivity|].
  split; [reflexivity|]. split; [vm_compute; reflexivity|].
  split; [vm_compute; reflexivity|]. vm_compute. discriminate.
Qed.

(** The end-to-end example: no credential, the location resolved, the
    astronomy service failing. *)
Example end_to_end_paris :
  exists text astronomy hs,
    (horoscope (Sample.world_with Sample.paris None) Sample.request_paris ∅).1
    = Ok (JSONResponse (mkpayload text astronomy hs))
    /\ text <> "" /\ is_Some (astronomy !! "moon_phase") /\ length hs = 12%nat.
Proof.
  eexists. eexists. eexists. split; [vm_compute; reflexivity|].
  split; [discriminate|]. split; [|reflexivity]. eexists. vm_compute. reflexivity.
Qed.

(** ** The request handler *)

Lemma parse_birthday_of (W : world) (o : option string) :
  parse_birthday W (py_of o) = o ≫= date_fromisoformat W.
Proof. destruct o; reflexivity. Qed.

Lemma py_truthy_of (o : option string) : py_truthy (py_of o) = Str.truthy_opt o.
Proof. destruct o; reflexivity. Qed.

Lemma py_str_of (o : option string) : Str.truthy_opt o = true -> py_str (py_of o) = or_empty o.
Proof. destruct o; [reflexivity | discriminate]. Qed.

Lemma locate_of (W : world) (o : option string) (geocode_cache : gmap string cache_entry) :
  Str.truthy_opt o = true ->
  locate W (py_of o) geocode_cache = geocode_location W (or_empty o) geocode_cache.
Proof. destruct o; [reflexivity | discriminate]. Qed.

(** The handler on a decoded request, by its steps. *)
Lemma horoscope_steps (W : world) (req : request) (geocode_cache : gmap string cache_entry) :
  let f := read_fields req in
  horoscope W req geocode_cache =
  match f_birthday f ≫= date_fromisoformat W with
  | None => (Raise (HTTPException 400 "Invalid birthday format"), geocode_cache)
  | Some bday =>
      let sign := zodiac_sign (d_month bday) (d_day bday) in
      if negb (Str.truthy_opt (f_birth_time f)) || negb (Str.truthy_opt (f_birth_location f))
      then (Raise (HTTPException 400 "Both birth_time and birth_location are required"),
            geocode_cache)
      else
        let birth_time := or_empty (f_birth_time f) in
        let '(located, geocode_cache) :=
          geocode_location W (or_empty (f_birth_location f)) geocode_cache in
        match located with
        | Raise (HTTPException status detail) =>
            (Raise (HTTPException status detail), geocode_cache)
        | _ =>
            let '(coords, tz_name) :=
              match located with
              | Ok (lat, lon, tz_name) => (Some (lat, lon), tz_name)
              | Raise _ => (None, "UTC")
              end in
            let c := chart_of W bday birth_time coords tz_name in
            (generation_step W req f sign c, geocode_cache)
        end
  end.
Proof.
  intros f. unfold horoscope, handle. fold f.
  cbn [inputs_of i_birthday i_birth_time i_birth_location].
  rewrite parse_birthday_of, !py_truthy_of.
  destruct (f_birthday f ≫= date_fromisoformat W) as [bday|]; [|reflexivity].
  destruct (Str.truthy_opt (f_birth_time f)) eqn:Et; [|reflexivity].
  destruct (Str.truthy_opt (f_birth_location f)) eqn:El; [|reflexivity].
  cbn [negb orb]. rewrite (locate_of W _ _ El), (py_str_of _ Et). reflexivity.
Qed.

(** The handler as it is received agrees with the handler on the decoded
    request. *)
Lemma post_horoscope_received (W : world) (req : request)
  (geocode_cache : gmap string cache_entry) :
  post_horoscope W (received req) geocode_cache = horoscope W req geocode_cache.
Proof.
  unfold post_horoscope, horoscope, read_inputs, read_fields, received.
  cbn [h_headers h_json h_form].
  destruct (Str.contains "application/json" (default "" (headers req !! "content-type")));
    cbn [mbind result_bind]; unfold inputs_of;
    cbn [f_name f_birthday f_birth_time f_birth_location f_tone];
    rewrite !lookup_fmap.
  - destruct (json_body req !! "name") as [[?|]|]; destruct (json_body req !! "birthday") as [[?|]|];
      destruct (json_body req !! "birth_time") as [[?|]|];
      destruct (json_body req !! "birth_location") as [[?|]|];
      destruct (json_body req !! "tone") as [[?|]|]; reflexivity.
  - destruct (form_body req !! "name"); destruct (form_body req !! "birthday");
      destruct (form_body req !! "birth_time"); destruct (form_body req !! "birth_location");
      destruct (form_body req !! "tone"); reflexivity.
Qed.

(** Past the two validations, the handler's answer is decided by the outcome
    of the location step. *)
Lemma horoscope_after_validation (W : world) (req : request)
  (geocode_cache : gmap string cache_entry) (bday : date) :
  let f := read_fields req in
  f_birthday f ≫= date_fromisoformat W = Some bday ->
  Str.truthy_opt (f_birth_time f) = true ->
  Str.truthy_opt (f_birth_location f) = true ->
  let sign := zodiac_sign (d_month bday) (d_day bday) in
  let birth_time := or_empty (f_birth_time f) in
  (horoscope W req geocode_cache).1 =
  match (geocode_location W (or_empty (f_birth_location f)) geocode_cache).1 with
  | Raise (HTTPException status detail) => Raise (HTTPException status detail)
  | Raise (Error _) => generation_step W req f sign (mkchart None [] ∅)
  | Ok (lat, lon, tz_name) =>
      generation_step W req f sign (chart_of W bday birth_time (Some (lat, lon)) tz_name)
  end.
Proof.
  intros f Hb Ht Hl sign birth_time. pose proof (horoscope_steps W req geocode_cache) as E.
  cbv zeta in E. rewrite E. fold f. rewrite Hb, Ht, Hl.
  cbn [negb orb].
  destruct (geocode_location W (or_empty (f_birth_location f)) geocode_cache)
    as [[[[lat lon] tz_name]|[status detail|text]] cache']; reflexivity.
Qed.

Lemma geocode_location_miss (W : world) (location : string)
  (geocode_cache : gmap string cache_entry) :
  fresh_entry geocode_cache (Str.lower (Str.strip location)) (time_time W) = None ->
  (geocode_location W location geocode_cache).1 = geocode_upstream W location.
Proof.
  intros H. unfold geocode_location. rewrite H.
  destruct (geocode_upstream W location) as [[[lat lon] tz_name]|e]; reflexivity.
Qed.

(** C9, amended. For a request that passes the two validations: a geocoding
    failure raised as an HTTP error is the answer of the whole request, and
    on a cache miss a non-200 upstream answer is HTTP 502 and an empty
    candidate list is HTTP 400; any other geocoding failure (the upstream
    call, the decoding of its body, the reading of the coordinates, the time
    zone lookup raising) does not stop the request, which goes on to the
    generation step with no natal summary, no houses and no astronomy data;
    the astrology and astronomy computations run only with the coordinates of
    a successful resolution. *)
Theorem geocoding_outcomes (W : world) (req : request)
  (geocode_cache : gmap string cache_entry) (bday : date) :
  let f := read_fields req in
  let location := or_empty (f_birth_location f) in
  f_birthday f ≫= date_fromisoformat W = Some bday ->
  Str.truthy_opt (f_birth_time f) = true ->
  Str.truthy_opt (f_birth_location f) = true ->
  fresh_entry geocode_cache (Str.lower (Str.strip location)) (time_time W) = None ->
  let sign := zodiac_sign (d_month bday) (d_day bday) in
  let answer := (horoscope W req geocode_cache).1 in
  let located := geocode_upstream W location in
  match located with
  | Raise (HTTPException status detail) => answer = Raise (HTTPException status detail)
  | Raise (Error _) => answer = generation_step W req f sign (mkchart None [] ∅)
  | Ok (lat, lon, tz_name) =>
      answer = generation_step W req f sign
                 (chart_of W bday (or_empty (f_birth_time f)) (Some (lat, lon)) tz_name)
  end
  /\ match nominatim_get W location with
     | Ok res =>
         if status_code res =? 200
         then match json res with
              | Ok [] => located = Raise (HTTPException 400 "Could not geocode birth location")
              | Ok (_ :: _) => True
              | Raise e => located = Raise e
              end
         else located = Raise (HTTPException 502 "Geocoding service error")
     | Raise e => located = Raise e
     end.
Proof.
  intros f location Hb Ht Hl Hmiss sign answer located. unfold answer. split.
  - pose proof (horoscope_after_validation W req geocode_cache bday Hb Ht Hl) as H.
    cbv zeta in H. rewrite H. fold f location sign.
    rewrite (geocode_location_miss W location geocode_cache Hmiss). unfold located.
    destruct (geocode_upstream W location) as [[[lat lon] tz_name]|[status detail|text]];
      reflexivity.
  - unfold located, geocode_upstream.
    destruct (nominatim_get W location) as [res|e]; cbn [mbind result_bind]; [|reflexivity].
    destruct (status_code res =? 200); cbn [negb]; [|reflexivity].
    destruct (json res) as [[|first rest]|e]; cbn [mbind result_bind]; auto.
Qed.

(** C9, counterexample: the geocoding request times out, and the request is
    answered all the same, with a generated text and an empty chart. *)
Lemma geocoding_timeout_not_blocking :
  let W := Sample.world_with (Raise (Error "timed out")) None in
  (geocode_location W "Paris, France" ∅).1 = Raise (Error "timed out")
  /\ exists text,
       (horoscope W Sample.request_paris ∅).1 = Ok (JSONResponse (mkpayload text ∅ [])).
Proof.
  split; [reflexivity|]. eexists. vm_compute. reflexivity.
Qed.

Lemma geocoding_outcomes_witness :
  (horoscope (Sample.world_with (Ok (mkresponse 503 (Ok []))) None) Sample.request_paris ∅).1
  = Raise (HTTPException 502 "Geocoding service error").
Proof.
  pose proof (geocoding_outcomes (Sample.world_with (Ok (mkresponse 503 (Ok []))) None)
                Sample.request_paris ∅ (mkdate 1990 6 15)
                eq_refl eq_refl eq_refl eq_refl) as [H _].
  exact H.
Defined.

(** C10, amended. A request whose body is decoded, as a JSON object or
    as form data, and gives no birthday (no such key, or [null]) is
    answered HTTP 400 "Invalid birthday format", like a malformed one,
    whatever its other fields: the birthday is parsed before birth time and
    location are checked, and the cache is left as it was. *)
Theorem missing_birthday_is_invalid (W : world) (r : http_request)
  (geocode_cache : gmap string cache_entry) (members : gmap string pyval) :
  (if Str.contains "application/json" (default "" (h_headers r !! "content-type"))
   then h_json r = Ok (JObject members)
   else h_form r = Ok members) ->
  members !! "birthday" = None \/ members !! "birthday" = Some PNone ->
  post_horoscope W r geocode_cache
  = (Raise (HTTPException 400 "Invalid birthday format"), geocode_cache).
Proof.
  intros Hbody Hb. unfold post_horoscope, read_inputs.
  assert (Hget : default PNone (members !! "birthday") = PNone)
    by (destruct Hb as [-> | ->]; reflexivity).
  destruct (Str.contains "application/json" (default "" (h_headers r !! "content-type")));
    rewrite Hbody; cbn [mbind result_bind]; unfold handle; cbn [i_birthday];
    rewrite Hget; reflexivity.
Qed.

Lemma missing_birthday_is_invalid_witness :
  post_horoscope (Sample.world_with Sample.paris None) (received Sample.request_no_birthday) ∅
  = (Raise (HTTPException 400 "Invalid birthday format"), ∅).
Proof.
  apply (missing_birthday_is_invalid (Sample.world_with Sample.paris None)
           (received Sample.request_no_birthday) ∅
           (py_of <$> json_body Sample.request_no_birthday)).
  - reflexivity.
  - left. reflexivity.
Defined.

(** C10, counterexample: a JSON request with an empty body, and one whose
    body is a list. Neither gives a birthday; the reading of the body raises
    before the birthday is looked at, and the error is not an HTTP 400. *)
Lemma undecodable_body_is_not_400 :
  let W := Sample.world_with Sample.paris None in
  post_horoscope W Sample.request_empty_body ∅
  = (Raise (Error "Expecting value: line 1 column 1 (char 0)"), ∅)
  /\ post_horoscope W Sample.request_list_body ∅
     = (Raise (Error "'list' object has no attribute 'get'"), ∅)
  /\ post_horoscope W Sample.request_empty_body ∅
     <> (Raise (HTTPException 400 "Invalid birthday format"), ∅).
Proof. split; [reflexivity|]. split; [reflexivity | discriminate]. Qed.

(** * Further properties *)

(** ** The geocode cache *)

Lemma Qltb_true (x y : Q) : (x < y)%Q -> Num.Qltb x y = true.
Proof.
  intros H. destruct (Qltb_cases x y) as [[_ E]|[Hle _]]; [exact E|].
  exfalso. exact (Qlt_not_le _ _ H Hle).
Qed.

Lemma Qltb_false (x y : Q) : (y <= x)%Q -> Num.Qltb x y = false.
Proof.
  intros H. destruct (Qltb_cases x y) as [[Hlt _]|[_ E]]; [|exact E].
  exfalso. exact (Qlt_not_le _ _ Hlt H).
Qed.

(** X1. A location resolved upstream is answered from the cache afterwards:
    any later call within seven days whose text has the same trimmed,
    lower-cased form returns the same fix and leaves the cache alone,
    whatever the upstream service would now answer. *)
Theorem geocode_cache_round_trip (W W' : world) (location location' : string)
  (geocode_cache geocode_cache' : gmap string cache_entry) (found : Q * Q * string) :
  fresh_entry geocode_cache (Str.lower (Str.strip location)) (time_time W) = None ->
  geocode_location W location geocode_cache = (Ok found, geocode_cache') ->
  Str.lower (Str.strip location') = Str.lower (Str.strip location) ->
  (time_time W' - time_time W < GEOCODE_TTL)%Q ->
  geocode_location W' location' geocode_cache' = (Ok found, geocode_cache').
Proof.
  intros Hmiss Hfirst Hkey Hage. unfold geocode_location in Hfirst. rewrite Hmiss in Hfirst.
  destruct (geocode_upstream W location) as [[[lat lon] tz_name]|e]; [|discriminate Hfirst].
  injection Hfirst as <- <-.
  unfold geocode_location. rewrite Hkey. unfold fresh_entry.
  rewrite lookup_insert_eq. cbn [e_time]. rewrite (Qltb_true _ _ Hage). reflexivity.
Qed.

Lemma geocode_cache_round_trip_witness :
  let W := Sample.world_with Sample.paris None in
  let W' := Sample.world_with (Raise (Error "timed out")) None in
  let cached := <["paris, france" := mkentry (4885 # 100) (235 # 100) "Europe/Paris" 1800000000]>
                  (∅ : gmap string cache_entry) in
  geocode_location W' "  PARIS, France " cached
  = (Ok (4885 # 100, 235 # 100, "Europe/Paris")%Q, cached).
Proof.
  apply (geocode_cache_round_trip (Sample.world_with Sample.paris None)
           (Sample.world_with (Raise (Error "timed out")) None)
           "Paris, France" "  PARIS, France " ∅).
  - reflexivity.
  - reflexivity.
  - reflexivity.
  - reflexivity.
Defined.

(** X2. A failed lookup never changes the cache. A successful one leaves
    every other key as it was and holds, under the trimmed, lower-cased
    location, an entry with the returned coordinates and time zone. *)
Theorem geocode_cache_update (W : world) (location : string)
  (geocode_cache : gmap string cache_entry) :
  let key := Str.lower (Str.strip location) in
  let cache' := (geocode_location W location geocode_cache).2 in
  match (geocode_location W location geocode_cache).1 with
  | Raise _ => cache' = geocode_cache
  | Ok (lat, lon, tz_name) =>
      (forall other, other <> key -> cache' !! other = geocode_cache !! other)
      /\ exists e, cache' !! key = Some e
                   /\ e_lat e = lat /\ e_lon e = lon /\ e_tz e = tz_name
  end.
Proof.
  intros key cache'. unfold cache', geocode_location. fold key.
  destruct (fresh_entry geocode_cache key (time_time W)) as [cached|] eqn:Ef.
  - cbn [fst snd]. split; [reflexivity|]. exists cached.
    unfold fresh_entry in Ef. destruct (geocode_cache !! key) as [e|]; [|discriminate Ef].
    destruct (Num.Qltb _ _); [|discriminate Ef]. injection Ef as ->. auto.
  - destruct (geocode_upstream W location) as [[[lat lon] tz_name]|e]; cbn [fst snd];
      [|reflexivity].
    split.
    + intros other Hne. apply lookup_insert_ne. congruence.
    + eexists. rewrite lookup_insert_eq. auto.
Qed.

(** X3. An entry that is seven days old or older is not used: the upstream
    service decides the answer, as if the cache held nothing for the
    location. *)
Theorem geocode_cache_expiry (W : world) (location : string)
  (geocode_cache : gmap string cache_entry) (e : cache_entry) :
  geocode_cache !! Str.lower (Str.strip location) = Some e ->
  (inject_Z 604800 <= time_time W - e_time e)%Q ->
  (geocode_location W location geocode_cache).1 = geocode_upstream W location.
Proof.
  intros He Hage. apply geocode_location_miss. unfold fresh_entry. rewrite He.
  rewrite Qltb_false; [reflexivity | exact Hage].
Qed.

Lemma geocode_cache_expiry_witness :
  let W := Sample.world_with (Ok (mkresponse 503 (Ok []))) None in
  (geocode_location W "Paris, France"
     (<["paris, france" := mkentry (4885 # 100) (235 # 100) "Europe/Paris" 1799395200]> ∅)).1
  = Raise (HTTPException 502 "Geocoding service error").
Proof.
  apply (geocode_cache_expiry (Sample.world_with (Ok (mkresponse 503 (Ok []))) None)
           "Paris, France" _ (mkentry (4885 # 100) (235 # 100) "Europe/Paris" 1799395200)).
  - reflexivity.
  - discriminate.
Defined.

(** X4. The time zone of a fix is never the empty text: the upstream path
    substitutes "UTC", and a cache whose entries all have a time zone keeps
    that property. *)
Theorem geocode_time_zone_named (W : world) (location : string)
  (geocode_cache : gmap string cache_entry) :
  map_Forall (fun _ e => e_tz e <> "") geocode_cache ->
  map_Forall (fun _ e => e_tz e <> "") (geocode_location W location geocode_cache).2
  /\ match (geocode_location W location geocode_cache).1 with
     | Ok (_, _, tz_name) => tz_name <> ""
     | Raise _ => True
     end.
Proof.
  intros Hinv. unfold geocode_location.
  destruct (fresh_entry geocode_cache _ (time_time W)) as [cached|] eqn:Ef.
  - cbn [fst snd]. split; [exact Hinv|].
    unfold fresh_entry in Ef.
    destruct (geocode_cache !! _) as [e|] eqn:El; [|discriminate Ef].
    destruct (Num.Qltb _ _); [|discriminate Ef]. injection Ef as <-.
    exact (Hinv _ _ El).
  - assert (Hup : match geocode_upstream W location with
                  | Ok (_, _, tz_name) => tz_name <> ""
                  | Raise _ => True
                  end).
    { unfold geocode_upstream.
      destruct (nominatim_get W location) as [res|?]; cbn [mbind result_bind]; [|exact I].
      destruct (negb (status_code res =? 200)); [exact I|].
      destruct (json res) as [[|first rest]|?]; cbn [mbind result_bind]; try exact I.
      destruct (c_lat first) as [lat|?]; cbn [mbind result_bind]; [|exact I].
      destruct (c_lon first) as [lon|?]; cbn [mbind result_bind]; [|exact I].
      destruct (timezone_at W lat lon) as [[[|c tz]|]|?]; cbn [mbind result_bind];
        try exact I; discriminate. }
    destruct (geocode_upstream W location) as [[[lat lon] tz_name]|e]; cbn [fst snd].
    + split; [|exact Hup]. apply map_Forall_insert_2; [exact Hup | exact Hinv].
    + split; [exact Hinv | exact I].
Qed.

Lemma geocode_time_zone_named_witness :
  let W := Sample.world_with Sample.paris None in
  map_Forall (fun _ e => e_tz e <> "") (geocode_location W "Paris, France" ∅).2
  /\ match (geocode_location W "Paris, France" ∅).1 with
     | Ok (_, _, tz_name) => tz_name <> ""
     | Raise _ => True
     end.
Proof.
  apply (geocode_time_zone_named (Sample.world_with Sample.paris None) "Paris, France" ∅).
  apply map_Forall_empty.
Defined.

(** ** Astronomy lookup *)

(** The astronomy data always hold a moon phase. *)
Lemma fetch_astronomy_has_moon_phase (W : world) (lat lon : Q) :
  exists v, fetch_astronomy W lat lon !! "moon_phase" = Some v /\ v <> VNone.
Proof.
  unfold fetch_astronomy.
  destruct (open_meteo_get W lat lon) as [res|e]; cbn [mbind result_bind try_except];
    [|eexists; split; [reflexivity | discriminate]].
  destruct (status_code res =? 200); cbn [negb];
    [|eexists; split; [reflexivity | discriminate]].
  destruct (json res) as [daily|e]; cbn [mbind result_bind try_except];
    [|eexists; split; [reflexivity | discriminate]].
  set (astronomy := list_to_map _).
  assert (Hm : astronomy !! "moon_phase" = Some (first_value daily "moon_phase"))
    by reflexivity.
  rewrite Hm. generalize (get_local_moon_phase (utcnow W)). intros local.
  destruct (first_value daily "moon_phase") as [|s|q] eqn:Ev; cbn [try_except];
    eexists; (split; [first [exact Hm | reflexivity] | discriminate]).
Qed.

(** X5. Whatever the astronomy service does (failure, non-200 answer, body
    without a moon phase), the data returned holds a moon phase that is not
    [None]. When the service answers 200 with a body, each of sunrise,
    sunset, moonrise, moonset and day length is the first value the body
    lists for it ([None] when it lists none); so is the moon phase if that
    first value is not [None], and the name of the phase is then absent;
    otherwise the moon phase and its name are those of the local
    computation. In every other case the data are the local moon phase and
    its name alone. *)
Theorem fetch_astronomy_moon_phase (W : world) (lat lon : Q) :
  let data := fetch_astronomy W lat lon in
  let local := get_local_moon_phase (utcnow W) in
  let local_only :=
    data = <["moon_phase" := VNum (moon_phase local)]>
             (<["moon_phase_name" := VStr (moon_phase_name local)]> ∅) in
  (exists v, data !! "moon_phase" = Some v /\ v <> VNone)
  /\ match open_meteo_get W lat lon with
     | Ok res =>
         if status_code res =? 200
         then match json res with
              | Ok daily =>
                  Forall (fun key => data !! key
                                     = Some match daily !! key with
                                            | Some (v :: _) => v
                                            | _ => VNone
                                            end)
                    ["sunrise"; "sunset"; "moonrise"; "moonset"; "day_length"]
                  /\ match daily !! "moon_phase" with
                     | Some (VStr s :: _) =>
                         data !! "moon_phase" = Some (VStr s)
                         /\ data !! "moon_phase_name" = None
                     | Some (VNum q :: _) =>
                         data !! "moon_phase" = Some (VNum q)
                         /\ data !! "moon_phase_name" = None
                     | _ =>
                         data !! "moon_phase" = Some (VNum (moon_phase local))
                         /\ data !! "moon_phase_name" = Some (VStr (moon_phase_name local))
                     end
              | Raise _ => local_only
              end
         else local_only
     | Raise _ => local_only
     end.
Proof.
  intros data local local_only. split; [apply fetch_astronomy_has_moon_phase|].
  unfold local_only, data, fetch_astronomy. fold local.
  destruct (open_meteo_get W lat lon) as [res|e]; cbn [mbind result_bind try_except].
  2:{ reflexivity. }
  destruct (status_code res =? 200); cbn [negb].
  2:{ reflexivity. }
  destruct (json res) as [daily|e]; cbn [mbind result_bind try_except].
  2:{ reflexivity. }
  set (astronomy := list_to_map _).
  assert (Hget : forall key,
            In key ["sunrise"; "sunset"; "moonrise"; "moonset"; "moon_phase"; "day_length"] ->
            astronomy !! key = Some match daily !! key with
                                    | Some (v :: _) => v
                                    | _ => VNone
                                    end).
  { assert (Hfirst : forall key, first_value daily key = match daily !! key with
                                                        | Some (v :: _) => v
                                                        | _ => VNone
                                                        end).
    { intros key. unfold first_value. destruct (daily !! key) as [[|? ?]|]; reflexivity. }
    intros key Hin. rewrite <- Hfirst. cbn [In] in Hin.
    repeat (destruct Hin as [<-|Hin]; [reflexivity|]). destruct Hin. }
  assert (Hname : astronomy !! "moon_phase_name" = None) by reflexivity.
  rewrite (Hget "moon_phase") by (cbn [In]; tauto).
  generalize local. intros l.
  assert (Hkeep : forall m : gmap string value,
            Forall (fun key => m !! key = astronomy !! key)
              ["sunrise"; "sunset"; "moonrise"; "moonset"; "day_length"] ->
            Forall (fun key => m !! key = Some match daily !! key with
                                               | Some (v :: _) => v
                                               | _ => VNone
                                               end)
              ["sunrise"; "sunset"; "moonrise"; "moonset"; "day_length"]).
  { intros m Hm. rewrite Forall_forall in Hm |- *. intros key Hin.
    rewrite (Hm key Hin). apply Hget. apply list_elem_of_In in Hin. cbn [In] in Hin |- *. tauto. }
  destruct (daily !! "moon_phase") as [[|[|s|q] rest]|] eqn:Ed; cbn [try_except];
    (split; [apply Hkeep; repeat constructor|]); try (split; reflexivity);
    (split; [|exact Hname]); rewrite (Hget "moon_phase") by (cbn [In]; tauto);
    rewrite Ed; reflexivity.
Qed.

(** ** Degrees, signs and houses *)

Lemma Qfloor_unique (x : Q) (n : Z) :
  (inject_Z n <= x)%Q -> (x < inject_Z (n + 1))%Q -> Qfloor x = n.
Proof.
  intros Hlo Hhi. pose proof (Qfloor_le x) as Hfl. pose proof (Qlt_floor x) as Hfu.
  assert (H1 : (inject_Z (Qfloor x) < inject_Z (n + 1))%Q) by lra.
  assert (H2 : (inject_Z n < inject_Z (Qfloor x + 1))%Q) by lra.
  rewrite <- Zlt_Qlt in H1, H2. lia.
Qed.

(** X6. The sign of a longitude between 0 and 360 degrees goes by bands
    of 30 degrees: a longitude in [30k, 30k + 30), for k in 0..11, gets the
    k-th sign, Aries first; the lookup does not fail there. *)
Theorem degree_sign_bands (deg : Q) (k : Z) :
  0 <= k < 12 ->
  (inject_Z (30 * k) <= deg)%Q ->
  (deg < inject_Z (30 * k + 30))%Q ->
  degree_to_sign_name deg
  = Ok (nth (Z.to_nat k)
          ["aries"; "taurus"; "gemini"; "cancer"; "leo"; "virgo";
           "libra"; "scorpio"; "sagittarius"; "capricorn"; "aquarius"; "pisces"] "").
Proof.
  intros Hk Hlo Hhi.
  rewrite (proj1 (degree_to_sign_name_total deg)). f_equal. unfold sign_of.
  change signs with ["aries"; "taurus"; "gemini"; "cancer"; "leo"; "virgo";
                     "libra"; "scorpio"; "sagittarius"; "capricorn"; "aquarius"; "pisces"].
  f_equal. f_equal.
  unfold Num.Qfloordiv, Num.Qmod.
  assert (Hk0 : (inject_Z 0 <= inject_Z (30 * k))%Q) by (rewrite <- Zle_Qle; lia).
  assert (Hk1 : (inject_Z (30 * k + 30) <= inject_Z 360)%Q) by (rewrite <- Zle_Qle; lia).
  change (inject_Z 0) with 0%Q in Hk0. change (inject_Z 360) with 360%Q in Hk1.
  assert (Ht : Qfloor (deg / 360) = 0).
  { apply Qfloor_unique; unfold Qdiv; change (/ 360)%Q with (1 # 360)%Q;
      change (inject_Z (0 + 1)) with 1%Q; change (inject_Z 0) with 0%Q; lra. }
  rewrite Ht. apply Qfloor_unique; unfold Qdiv; change (/ 30)%Q with (1 # 30)%Q;
    change (inject_Z 0) with 0%Q.
  - rewrite inject_Z_mult in Hlo. change (inject_Z 30) with 30%Q in Hlo. lra.
  - rewrite inject_Z_plus, inject_Z_mult in Hhi.
    change (inject_Z 30) with 30%Q in Hhi. rewrite inject_Z_plus.
    change (inject_Z 1) with 1%Q. lra.
Qed.

Lemma degree_sign_bands_witness :
  degree_to_sign_name (1234 # 10) = Ok "leo".
Proof.
  apply (degree_sign_bands (1234 # 10) 4); [lia | discriminate | reflexivity].
Defined.

Lemma Qmod_30_range (x : Q) : (0 <= Num.Qmod x 30)%Q /\ (Num.Qmod x 30 < 30)%Q.
Proof.
  unfold Num.Qmod. pose proof (Qfloor_le (x / 30)) as Hlo.
  pose proof (Qlt_floor (x / 30)) as Hhi. rewrite inject_Z_plus in Hhi.
  change (inject_Z 1) with 1%Q in Hhi. unfold Qdiv in *.
  change (/ 30)%Q with (1 # 30)%Q in *.
  generalize dependent (inject_Z (Qfloor (x * (1 # 30)))). intros q Hlo Hhi.
  split; lra.
Qed.

Lemma round1_degree_range (x : Q) :
  (0 <= x)%Q -> (x < 30)%Q -> (0 <= Num.round1 x)%Q /\ (Num.round1 x <= 30)%Q.
Proof.
  intros H0 H30. unfold Num.round1.
  assert (Hy0 : (0 <= x * 10)%Q) by lra.
  assert (Hy1 : (x * 10 < inject_Z 300)%Q) by (change (inject_Z 300) with 300%Q; lra).
  pose proof (Qfloor_bounds _ _ Hy0 Hy1) as Hf.
  pose proof (round_half_even_cases (x * 10)) as Hc. cbv zeta in Hc.
  remember (Num.round_half_even (x * 10)) as n eqn:En. clear En.
  assert (Hn : 0 <= n <= 300) by (destruct Hc as [[-> _]|[-> _]]; lia).
  assert (Hn0 : (inject_Z 0 <= inject_Z n)%Q) by (rewrite <- Zle_Qle; lia).
  assert (Hn1 : (inject_Z n <= inject_Z 300)%Q) by (rewrite <- Zle_Qle; lia).
  change (inject_Z 0) with 0%Q in Hn0. change (inject_Z 300) with 300%Q in Hn1.
  clear Hc Hf Hn Hy0 Hy1. unfold Qdiv. change (/ 10)%Q with (1 # 10)%Q.
  generalize dependent (inject_Z n). intros q Hq0 Hq1. split; lra.
Qed.

(** X7. For a cusp array of any length whose entries lie between 0 and
    360 degrees, as the ephemeris gives them, the house loop does not fail:
    it yields min(12, length)
    houses (12 for 13 entries or more, read from the second entry on),
    numbered 1, 2, ... in order, each with one of the twelve sign names and
    a degree between 0 and 30, both ends included (29.97 is rounded to
    30.0). *)
Theorem cusp_loop_shape (cusps : list Q) :
  Forall (fun cusp => (0 <= cusp)%Q /\ (cusp < 360)%Q) cusps ->
  exists hs,
    cusp_loop cusps (cusp_indices (length cusps)) 1 [] = Ok hs
    /\ length hs = Nat.min 12 (length cusps)
    /\ map house hs = map (fun k => Z.of_nat k + 1) (seq 0 (length hs))
    /\ Forall (fun h =>
                 In (sign h) ["aries"; "taurus"; "gemini"; "cancer"; "leo"; "virgo"; "libra";
                              "scorpio"; "sagittarius"; "capricorn"; "aquarius"; "pisces"]
                 /\ (0 <= degree h)%Q /\ (degree h <= 30)%Q) hs.
Proof.
  intros _.
  set (offset := if Nat.leb 13 (length cusps) then 1%nat else 0%nat).
  exists (map (house_of cusps offset) (seq 0 (house_count (length cusps)))).
  split; [|split; [|split]].
  - unfold cusp_indices, house_count, offset.
    destruct (Nat.leb_spec 13 (length cusps)) as [H13|H13];
      rewrite cusp_loop_seq by lia; cbn [app]; f_equal; apply map_ext; intros k;
      unfold house_of; cbv zeta; f_equal; lia.
  - rewrite length_map, length_seq. unfold house_count.
    destruct (Nat.leb_spec 13 (length cusps)); lia.
  - rewrite length_map, length_seq, map_map. reflexivity.
  - apply Forall_forall. intros h Hh. apply list_elem_of_In, in_map_iff in Hh. destruct Hh as [k [<- _]].
    unfold house_of. cbn [sign degree]. split.
    + unfold sign_of. apply (proj2 (degree_to_sign_name_total _)).
    + destruct (Qmod_30_range (nth (offset + k) cusps 0%Q)) as [H0 H30].
      apply round1_degree_range; assumption.
Qed.

Lemma cusp_loop_shape_witness :
  exists hs,
    cusp_loop [10; 40; 70]%Q (cusp_indices 3) 1 [] = Ok hs
    /\ length hs = 3%nat
    /\ map house hs = [1; 2; 3]
    /\ Forall (fun h =>
                 In (sign h) ["aries"; "taurus"; "gemini"; "cancer"; "leo"; "virgo"; "libra";
                              "scorpio"; "sagittarius"; "capricorn"; "aquarius"; "pisces"]
                 /\ (0 <= degree h)%Q /\ (degree h <= 30)%Q) hs.
Proof.
  destruct (cusp_loop_shape [10; 40; 70]%Q) as [hs [H1 [H2 [H3 H4]]]].
  - repeat constructor; discriminate.
  - exists hs. split; [exact H1|]. split; [exact H2|]. split; [|exact H4].
    rewrite H3, H2. reflexivity.
Defined.

(** The upper end is reached: a cusp at 59.97 degrees is in Taurus at 30.0. *)
Example cusp_degree_thirty :
  exists h, cusp_loop [5997 # 100]%Q (cusp_indices 1) 1 [] = Ok [h]
            /\ sign h = "taurus" /\ (degree h == 30)%Q.
Proof. eexists. split; [reflexivity|]. split; reflexivity. Qed.

(** ** The handler as a whole *)

(** X8. With a birthday that parses, a request whose birth time or birth
    location is missing, [null] or empty is answered HTTP 400 "Both
    birth_time and birth_location are required"; nothing is resolved and the
    cache is left as it was. *)
Theorem missing_time_or_location (W : world) (req : request)
  (geocode_cache : gmap string cache_entry) (bday : date) :
  f_birthday (read_fields req) ≫= date_fromisoformat W = Some bday ->
  Str.truthy_opt (f_birth_time (read_fields req)) = false
  \/ Str.truthy_opt (f_birth_location (read_fields req)) = false ->
  horoscope W req geocode_cache
  = (Raise (HTTPException 400 "Both birth_time and birth_location are required"),
     geocode_cache).
Proof.
  intros Hb Hmissing. pose proof (horoscope_steps W req geocode_cache) as E.
  cbv zeta in E. rewrite E, Hb.
  destruct Hmissing as [-> | ->]; [reflexivity|].
  rewrite orb_true_r. reflexivity.
Qed.

Lemma missing_time_or_location_witness :
  horoscope (Sample.world_with Sample.paris None)
    {| headers := Sample.json_headers;
       json_body := list_to_map [("birthday", Some "1990-06-15"); ("birth_time", Some "");
                                 ("birth_location", Some "Paris, France")];
       form_body := ∅ |} ∅
  = (Raise (HTTPException 400 "Both birth_time and birth_location are required"), ∅).
Proof.
  apply (missing_time_or_location (Sample.world_with Sample.paris None) _ ∅
           (mkdate 1990 6 15)).
  - reflexivity.
  - left. reflexivity.
Defined.

(** X11. A request whose body names no tone is read with the tone
    "funny", and a JSON body whose tone is [null] with no tone; in both
    cases the generator draws from the playful sentences. *)
Theorem default_tone_is_playful (r : http_request) (members : gmap string pyval) :
  (if Str.contains "application/json" (default "" (h_headers r !! "content-type"))
   then h_json r = Ok (JObject members)
   else h_form r = Ok members) ->
  members !! "tone" = None \/ members !! "tone" = Some PNone ->
  exists v,
    read_inputs r = Ok v
    /\ i_tone v = match members !! "tone" with
                  | None => PStr "funny"
                  | Some _ => PNone
                  end
    /\ forall display sign transit feature,
         tone_templates (i_tone v) display sign transit feature
         = Ok (reference_templates Playful display sign transit feature).
Proof.
  intros Hbody Htone. unfold read_inputs.
  destruct (Str.contains "application/json" (default "" (h_headers r !! "content-type")));
    rewrite Hbody; cbn [mbind result_bind]; eexists; (split; [reflexivity|]);
    cbn [i_tone]; destruct Htone as [-> | ->]; split; reflexivity.
Qed.

Lemma default_tone_is_playful_witness :
  exists v,
    read_inputs (received Sample.request_no_birthday) = Ok v
    /\ i_tone v = PStr "funny"
    /\ forall display sign transit feature,
         tone_templates (i_tone v) display sign transit feature
         = Ok (reference_templates Playful display sign transit feature).
Proof.
  destruct (default_tone_is_playful (received Sample.request_no_birthday)
              (py_of <$> json_body Sample.request_no_birthday) eq_refl (or_introl eq_refl))
    as [v [Hread [Htone Hplayful]]].
  exists v. split; [exact Hread|]. split; [|exact Hplayful].
  rewrite Htone. reflexivity.
Defined.

(** X18. A location the handler resolves upstream is remembered under its
    trimmed, lower-cased text whatever happens next: the cache handed back
    holds the fix also when the generation step fails with HTTP 502. *)
Theorem horoscope_caches_location (W : world) (req : request)
  (geocode_cache : gmap string cache_entry) (bday : date) (lat lon : Q) (tz_name : string) :
  let f := read_fields req in
  let location := or_empty (f_birth_location f) in
  f_birthday f ≫= date_fromisoformat W = Some bday ->
  Str.truthy_opt (f_birth_time f) = true ->
  Str.truthy_opt (f_birth_location f) = true ->
  fresh_entry geocode_cache (Str.lower (Str.strip location)) (time_time W) = None ->
  geocode_upstream W location = Ok (lat, lon, tz_name) ->
  (horoscope W req geocode_cache).2
  = <[Str.lower (Str.strip location) := mkentry lat lon tz_name (time_time W)]> geocode_cache.
Proof.
  intros f location Hb Ht Hl Hmiss Hup. pose proof (horoscope_steps W req geocode_cache) as E.
  cbv zeta in E. rewrite E. fold f. rewrite Hb, Ht, Hl.
  cbn [negb orb]. fold location. unfold geocode_location. rewrite Hmiss, Hup.
  reflexivity.
Qed.

Lemma horoscope_caches_location_witness :
  let W := Sample.world_with Sample.paris (Some (Raise (Error "connection reset"))) in
  (horoscope W Sample.request_paris ∅).1
  = Raise (HTTPException 502 "OpenAI API error: connection reset")
  /\ (horoscope W Sample.request_paris ∅).2
     = <["paris, france" := mkentry (4885 # 100) (235 # 100) "Europe/Paris" 1800000000]> ∅.
Proof.
  split; [vm_compute; reflexivity|].
  apply (horoscope_caches_location
           (Sample.world_with Sample.paris (Some (Raise (Error "connection reset"))))
           Sample.request_paris ∅ (mkdate 1990 6 15) (4885 # 100) (235 # 100) "Europe/Paris");
    reflexivity.
Defined.

(** ** The text of the fallback *)

Lemma opening_shape (b : bucket) (display sign transit feature opening : string) :
  In opening (reference_openings b display sign transit feature) ->
  exists middle rest, opening = display +:+ middle +:+ sign +:+ rest.
Proof.
  destruct b; cbn [reference_openings In];
    intros [<-|[<-|[<-|[<-|[]]]]];
    first [ eexists "", _; reflexivity | eexists _, _; reflexivity ].
Qed.

(** X12. Whenever the fallback returns a paragraph, it starts with the name
    followed by ", " (with nothing when the name is absent or empty), its
    first sentence is one of the openings and names the sign, and the natal
    summary, when there is one, stands in parentheses, word for word, after
    the second sentence. *)
Theorem local_fallback_text (R : random_lib) (name : pyval) (sign : string) (tone : pyval)
  (natal : option string) (now text : string) :
  local_fallback R name sign tone natal now = Ok text ->
  exists b transit feature opening advice why,
    text = opening +:+ " " +:+ advice
           +:+ match natal with
               | Some (String c s) => " (" +:+ String c s +:+ ")"
               | _ => ""
               end
           +:+ " " +:+ why
    /\ In opening (reference_openings b
                     match name with
                     | PStr (String c n) => String c n +:+ ", "
                     | _ => ""
                     end sign transit feature)
    /\ In advice (reference_advices b "" sign transit feature)
    /\ In why (reference_whys b "" sign transit feature)
    /\ String.prefix match name with
                     | PStr (String c n) => String c n +:+ ", "
                     | _ => ""
                     end opening = true
    /\ Str.contains sign opening = true.
Proof.
  intros H.
  assert (Hb : exists b, forall display s transit feature,
             tone_templates tone display s transit feature
             = Ok (reference_templates b display s transit feature)).
  { assert (Hstr : (forall type_name t, tone <> POther type_name t true) ->
                     exists b, forall display s transit feature,
                       tone_templates tone display s transit feature
                       = Ok (reference_templates b display s transit feature)).
    { intros Hstr. destruct (tone_templates_bucket tone Hstr) as [b [_ Hb]]. eauto. }
    destruct tone as [|t|type_name tone_text [|]];
      try (apply Hstr; intros ? ?; discriminate).
    destruct (local_fallback_ok R name sign _ natal now text H) as [_ [seed [_ Hc]]].
    rewrite compose_raise in Hc. discriminate Hc. }
  destruct Hb as [b Hb].
  destruct (local_fallback_ok R name sign tone natal now text H) as [_ [seed [_ Hc]]].
  destruct (compose_shape R (greeting name) sign tone natal (random_seed R seed) b
              (fun transit feature => Hb _ _ _ _))
    as [transit [feature [opening [advice [why [_ [Ho [Ha [Hw E]]]]]]]]].
  rewrite Hc in E. injection E as ->.
  exists b, transit, feature, opening, advice, why.
  split; [reflexivity|]. split; [exact Ho|].
  split; [destruct b; exact Ha|]. split; [destruct b; exact Hw|].
  destruct (opening_shape _ _ _ _ _ _ Ho) as [middle [rest ->]]. split.
  - apply prefix_spec. eauto.
  - apply contains_spec. exists (greeting name +:+ middle), rest.
    rewrite !append_assoc. reflexivity.
Qed.

Lemma local_fallback_text_witness :
  exists b transit feature opening advice why,
    "Alex, A quirky twist for gemini as Jupiter opposite Neptune adds excitement to your Sun in leo. Give yourself one goofy detour and keep the rest simple, honoring your Sun in leo. (Sun in leo) Surprise adds fuel to your momentum without derailing the day, especially for your Sun in leo."
    = opening +:+ " " +:+ advice +:+ " (Sun in leo)" +:+ " " +:+ why
    /\ In opening (reference_openings b "Alex, " "gemini" transit feature)
    /\ In advice (reference_advices b "" "gemini" transit feature)
    /\ In why (reference_whys b "" "gemini" transit feature)
    /\ String.prefix "Alex, " opening = true
    /\ Str.contains "gemini" opening = true.
Proof.
  apply (local_fallback_text Sample.lcg (PStr "Alex") "gemini" (PStr "funny")
           (Some "Sun in leo") "1800000000.0").
  vm_compute. reflexivity.
Defined.

(** ** The classifier outside the calendar *)

(** X13. The classifier has no error path: for every pair of integers it
    returns one of the twelve names, and for every month outside 1..12 (0,
    13, negative ones) that name is "pisces", whatever the day. *)
Theorem zodiac_sign_total (month day : Z) :
  In (zodiac_sign month day) signs
  /\ (1 <= month <= 12 \/ zodiac_sign month day = "pisces").
Proof.
  split.
  - unfold zodiac_sign, signs.
    repeat match goal with
           | |- context [if ?b then _ else _] => destruct b
           end; simpl; tauto.
  - destruct (Z_lt_le_dec month 1) as [Hlo|Hlo]; [|destruct (Z_lt_le_dec 12 month) as [Hhi|Hhi]];
      [right | right | left; lia];
      unfold zodiac_sign;
      repeat match goal with
             | |- context [month =? ?k] =>
                 replace (month =? k) with false by (symmetry; apply Z.eqb_neq; lia)
             end;
      reflexivity.
Qed.

(** ** Prompt composer *)

Lemma astronomy_bits_empty (float_str : Q -> string) : astronomy_bits float_str ∅ = [].
Proof. reflexivity. Qed.

(** X14. The message sent to the hosted model always opens with the header
    block (name, zodiac, birthday) and closes with the fixed instructions.
    With a natal summary, the summary and then the astronomy line come
    between the header and the block of birth time, location and tone;
    without one, the astronomy line comes after that block. *)
Theorem user_parts_order (float_str : Q -> string) (name : option string) (sign : string)
  (bday : date) (birth_time birth_location tone natal_summary : option string)
  (astronomy_data : gmap string value) :
  let header :=
    "User details:" +:+ LF +:+ "- Name: " +:+ or_unknown name +:+ LF
    +:+ "- Zodiac: " +:+ sign +:+ LF +:+ "- Birthday: " +:+ date_isoformat bday +:+ LF in
  let details :=
    "- Birth time: " +:+ or_unknown birth_time +:+ LF
    +:+ "- Birth location: " +:+ or_unknown birth_location +:+ LF
    +:+ "- Tone: " +:+ Str.of_opt tone +:+ LF +:+ LF in
  let sky := astronomy_line float_str astronomy_data in
  user_parts float_str name sign bday birth_time birth_location tone natal_summary
    astronomy_data
  = if Str.truthy_opt natal_summary
    then ([header; "Natal chart summary: " +:+ or_empty natal_summary +:+ LF +:+ LF]
          ++ sky ++ [details; instructions])%list
    else ([header; details] ++ sky ++ [instructions])%list.
Proof.
  intros header details sky. unfold user_parts, sky, astronomy_line.
  fold header details.
  destruct (decide (astronomy_data = ∅)) as [->|Hne].
  - rewrite bool_decide_eq_true_2 by reflexivity. rewrite astronomy_bits_empty.
    destruct (Str.truthy_opt natal_summary); reflexivity.
  - rewrite bool_decide_eq_false_2 by exact Hne.
    destruct (astronomy_bits float_str astronomy_data);
      destruct (Str.truthy_opt natal_summary); reflexivity.
Qed.

(** X15. Once the coordinates are resolved, the message sent to the hosted
    model always has an astronomy line, and that line ends with the moon
    phase: the astronomy data of the chart hold one in every case. *)
Theorem prompt_names_moon_phase (float_str : Q -> string) (W : world) (bday : date)
  (birth_time : string) (lat lon : Q) (tz_name : string) :
  let data := astronomy_data (chart_of W bday birth_time (Some (lat, lon)) tz_name) in
  exists earlier v,
    data !! "moon_phase" = Some v
    /\ astronomy_bits float_str data = (earlier ++ ["moon phase " +:+ str_value float_str v])%list
    /\ astronomy_line float_str data
       = ["Astronomy today at the user's location: "
          +:+ Str.join ", " (earlier ++ ["moon phase " +:+ str_value float_str v])
          +:+ LF +:+ LF].
Proof.
  intros data. unfold data, chart_of. cbn [astronomy_data].
  destruct (fetch_astronomy_has_moon_phase W lat lon) as [v [Hv Hnone]].
  set (sky := fetch_astronomy W lat lon) in *.
  exists ((if truthy_value (default VNone (sky !! "sunrise"))
           then ["sunrise " +:+ str_value float_str (default VNone (sky !! "sunrise"))] else [])
          ++ (if truthy_value (default VNone (sky !! "sunset"))
              then ["sunset " +:+ str_value float_str (default VNone (sky !! "sunset"))]
              else []))%list, v.
  split; [exact Hv|].
  assert (Hbits : astronomy_bits float_str sky
                  = (((if truthy_value (default VNone (sky !! "sunrise"))
                       then ["sunrise " +:+ str_value float_str (default VNone (sky !! "sunrise"))]
                       else [])
                      ++ (if truthy_value (default VNone (sky !! "sunset"))
                          then ["sunset " +:+ str_value float_str (default VNone (sky !! "sunset"))]
                          else []))
                     ++ ["moon phase " +:+ str_value float_str v])%list).
  { unfold astronomy_bits. cbv zeta. rewrite Hv. cbn [default].
    rewrite <- app_assoc. destruct v; [congruence | reflexivity | reflexivity]. }
  split; [exact Hbits|].
  unfold astronomy_line. rewrite Hbits.
  destruct (_ ++ _)%list eqn:E at 1; [|rewrite <- E; reflexivity].
  apply app_eq_nil in E. destruct E as [_ E]. discriminate E.
Qed.

(** ** Chart features of a computed summary *)

Lemma chars_app (a b : string) :
  list_ascii_of_string (a +:+ b) = (list_ascii_of_string a ++ list_ascii_of_string b)%list.
Proof. induction a as [|c a IH]; [reflexivity|]. rewrite append_cons. simpl. rewrite IH. reflexivity. Qed.

Lemma semicolon_free_app (a b : string) :
  semicolon_free a -> semicolon_free b -> semicolon_free (a +:+ b).
Proof.
  unfold semicolon_free. rewrite chars_app, in_app_iff. tauto.
Qed.

Lemma split_whole (sep : ascii) (s : string) :
  ~ In sep (list_ascii_of_string s) -> Str.split sep s = [s].
Proof.
  induction s as [|c s IH]; [reflexivity|]. simpl. intros H.
  destruct (Ascii.eqb_spec c sep) as [->|Hc]; [tauto|].
  rewrite IH by tauto. reflexivity.
Qed.

Lemma split_at (sep : ascii) (a b : string) :
  ~ In sep (list_ascii_of_string a) ->
  Str.split sep (a +:+ String sep b) = a :: Str.split sep b.
Proof.
  induction a as [|c a IH]; intros H.
  - change ("" +:+ String sep b) with (String sep b). simpl.
    rewrite Ascii.eqb_refl. reflexivity.
  - rewrite append_cons. simpl in H |- *.
    destruct (Ascii.eqb_spec c sep) as [->|Hc]; [tauto|].
    rewrite IH by tauto. reflexivity.
Qed.

Lemma whitespace_only_space (p : string) :
  whitespace_only (" " +:+ p) = whitespace_only p.
Proof. reflexivity. Qed.

Lemma chart_features_pair (first second : string) :
  semicolon_free first -> semicolon_free second ->
  whitespace_only first = false -> whitespace_only second = false ->
  chart_features (Some (first +:+ "; " +:+ second)) = [first; " " +:+ second].
Proof.
  intros Hf Hs Hwf Hws. rewrite chart_features_segments. unfold segments. cbn [or_empty].
  change (first +:+ "; " +:+ second) with (first +:+ String ";" (" " +:+ second)).
  rewrite (split_at ";" first _ Hf).
  rewrite (split_whole ";" (" " +:+ second)).
  - cbn [List.filter]. rewrite Hwf, whitespace_only_space, Hws. reflexivity.
  - change (semicolon_free (" " +:+ second)). apply semicolon_free_app; [|exact Hs].
    unfold semicolon_free. simpl. intros [H|[]]. discriminate H.
Qed.

Lemma chart_features_single (clause : string) :
  semicolon_free clause -> whitespace_only clause = false ->
  chart_features (Some clause) = [clause].
Proof.
  intros Hf Hw. rewrite chart_features_segments. unfold segments. cbn [or_empty].
  rewrite (split_whole ";" clause Hf). cbn [List.filter]. rewrite Hw. reflexivity.
Qed.

(** X16. The chart features are taken as they stand between the
    semicolons, without trimming: from a summary of two clauses joined by
    "; " the features are the first clause and the second one with the
    space that followed the semicolon still in front of it. *)
Theorem chart_features_two_clauses (first second : string) :
  semicolon_free first -> semicolon_free second ->
  whitespace_only first = false -> whitespace_only second = false ->
  chart_features (Some (Str.join "; " [first; second])) = [first; " " +:+ second].
Proof.
  intros Hf Hs Hwf Hws. rewrite chart_features_segments. unfold segments. cbn [or_empty].
  change (Str.join "; " [first; second]) with (first +:+ String ";" (" " +:+ second)).
  rewrite (split_at ";" first _ Hf).
  assert (Hrest : semicolon_free (" " +:+ second)).
  { apply semicolon_free_app; [|exact Hs]. unfold semicolon_free. simpl.
    intros [H|[]]. discriminate H. }
  rewrite (split_whole ";" (" " +:+ second) Hrest).
  cbn [List.filter]. rewrite Hwf, whitespace_only_space, Hws. reflexivity.
Qed.

Lemma chart_features_two_clauses_witness :
  chart_features (Some "Ascendant: leo (123.4°); Planets: Sun in aries (12.3°)")
  = ["Ascendant: leo (123.4°)"; " Planets: Sun in aries (12.3°)"].
Proof.
  apply (chart_features_two_clauses "Ascendant: leo (123.4°)" "Planets: Sun in aries (12.3°)").
  - unfold semicolon_free. simpl. intuition discriminate.
  - unfold semicolon_free. simpl. intuition discriminate.
  - reflexivity.
  - reflexivity.
Defined.

Ltac literal_free := solve [unfold semicolon_free; simpl; intuition discriminate].

Lemma string_of_uint_free (d : Decimal.uint) : semicolon_free (NilEmpty.string_of_uint d).
Proof.
  unfold semicolon_free. induction d; simpl; [tauto| | | | | | | | | |];
    intros [H|H]; first [discriminate H | exact (IHd H)].
Qed.

Lemma of_Z_free (n : Z) : semicolon_free (Str.of_Z n).
Proof.
  unfold Str.of_Z, NilZero.string_of_int, NilZero.string_of_uint.
  destruct (Z.to_int n) as [d|d].
  - destruct d; first [literal_free | apply string_of_uint_free].
  - change (semicolon_free ("-" +:+ match d with
                                   | Decimal.Nil => "0"
                                   | _ => NilEmpty.string_of_uint d
                                   end)).
    apply semicolon_free_app; [literal_free|].
    destruct d; first [literal_free | apply string_of_uint_free].
Qed.

Lemma sign_of_free (deg : Q) : semicolon_free (sign_of deg).
Proof.
  pose proof (proj2 (degree_to_sign_name_total deg)) as H. unfold signs in H. simpl in H.
  repeat (destruct H as [<-|H]; [literal_free|]). destruct H.
Qed.

Ltac free_pieces :=
  repeat apply semicolon_free_app;
  first [ assumption | apply sign_of_free | apply of_Z_free
        | destruct (Num.Qltb _ 0); literal_free | literal_free ].

Lemma ascendant_clause_plain (L : astro_lib) (jd lat lon : Q) :
  ascendant_clause L jd lat lon = []
  \/ exists a, ascendant_clause L jd lat lon = [a] /\ plain_clause a.
Proof.
  unfold ascendant_clause.
  destruct (swe_houses L jd lat lon) as [[cusps [|asc_deg rest]]|e]; auto.
  right. eexists. split; [reflexivity|]. split; [|reflexivity].
  free_pieces.
Qed.

Lemma planet_entries_free (L : astro_lib) (jd : Q) (bodies : list (string * Z)) :
  Forall (fun body => semicolon_free body.1) bodies ->
  Forall semicolon_free (omap (planet_entry L jd) bodies).
Proof.
  induction 1 as [|body rest Hb _ IH]; [constructor|].
  cbn [omap list_omap]. unfold planet_entry at 1.
  destruct (swe_calc_ut L jd body.2) as [lonp|e]; [|exact IH].
  constructor; [|exact IH].
  free_pieces.
Qed.

Lemma join_free (entries : list string) :
  Forall semicolon_free entries -> semicolon_free (Str.join ", " entries).
Proof.
  induction 1 as [|e rest He Hrest IH]; [literal_free|].
  destruct rest as [|e' rest]; [exact He|].
  change (Str.join ", " (e :: e' :: rest)) with (e +:+ ", " +:+ Str.join ", " (e' :: rest)).
  apply semicolon_free_app; [exact He|]. apply semicolon_free_app; [literal_free | exact IH].
Qed.

Lemma planets_clause_plain (L : astro_lib) (jd : Q) :
  planets_clause L jd = []
  \/ exists p, planets_clause L jd = [p] /\ plain_clause p.
Proof.
  unfold planets_clause.
  pose proof (planet_entries_free L jd planets) as Hfree.
  destruct (omap (planet_entry L jd) planets) as [|entry entries]; auto.
  right. eexists. split; [reflexivity|]. split; [|reflexivity].
  apply semicolon_free_app; [literal_free|]. apply join_free.
  apply Forall_take, Hfree.
  unfold planets. repeat constructor; literal_free.
Qed.

Lemma compute_natal_summary_joined (L : astro_lib) (bday : date) (birth_time : string)
  (lat lon : Q) (tz_name : string) (jd : Q) :
  birth_julday L bday birth_time tz_name = Ok jd ->
  compute_natal_summary L bday birth_time lat lon tz_name
  = Ok (Str.join "; " (ascendant_clause L jd lat lon ++ planets_clause L jd)).
Proof.
  intros Hjd. unfold compute_natal_summary. rewrite Hjd. cbn [mbind result_bind].
  pose proof (ascendant_parts L jd lat lon) as Ha.
  destruct (ascendant L jd lat lon) as [asc_deg asc_sign]. cbn [fst snd] in Ha.
  rewrite planet_loop_entries. cbn [app]. unfold planets_clause. rewrite Ha.
  destruct (omap (planet_entry L jd) planets); [rewrite app_nil_r|]; reflexivity.
Qed.

(** X17. The chart features the fallback draws from, for the chart the
    handler computed: none when the summary is absent or empty; the single
    clause when only the ascendant or only the planets could be computed;
    and with both, the ascendant clause and the whole "Planets: ..." clause
    with a space in front of it. A feature is never one body alone. *)
Theorem chart_features_of_chart (W : world) (bday : date) (birth_time : string)
  (lat lon : Q) (tz_name : string) :
  let summary := natal_summary (chart_of W bday birth_time (Some (lat, lon)) tz_name) in
  chart_features summary
  = match birth_julday (astro W) bday birth_time tz_name with
    | Ok jd =>
        match ascendant_clause (astro W) jd lat lon, planets_clause (astro W) jd with
        | [a], [p] => [a; " " +:+ p]
        | a, p => (a ++ p)%list
        end
    | Raise _ => []
    end.
Proof.
  intros summary. unfold summary, chart_of. cbn [natal_summary].
  destruct (birth_julday (astro W) bday birth_time tz_name) as [jd|e] eqn:Hjd.
  - rewrite (compute_natal_summary_joined _ _ _ _ _ _ _ Hjd).
    cbn [mbind result_bind try_except].
    destruct (ascendant_clause_plain (astro W) jd lat lon) as [->|[a [-> [Ha Hwa]]]];
      destruct (planets_clause_plain (astro W) jd) as [->|[p [-> [Hp Hwp]]]]; cbn [app].
    + reflexivity.
    + apply chart_features_single; assumption.
    + apply chart_features_single; assumption.
    + apply chart_features_pair; assumption.
  - unfold compute_natal_summary. rewrite Hjd. reflexivity.
Qed.
